(** * Historify search service: a shallow embedding of [src/services/search.js]

    The development follows the class [SearchService]: the tokenizer and the
    stemmer, the inverted index, the three candidate-selection strategies, the
    filters, the TF-IDF relevance scorer, sorting, pagination, the
    suggestion engine and the search analytics.

    Modelling conventions.
    - A JavaScript string is a [string] of the Standard Library; its
      characters are read as the code units U+0000 to U+00FF, and the string
      built-ins ([toLowerCase], the classes [\w] and [\s], [split],
      [includes], [startsWith], [endsWith], [slice]) are written out on that
      range.
    - A JavaScript number that can only be an integer (a length, an offset, a
      file size) is a [nat] or a [Z]; a relevance score is a [jsnum]: a real
      number or one of the special values of IEEE arithmetic the code can
      produce.  Rounding of doubles is not modelled.
    - A [Map] or a [Set] is an association list or a duplicate-free list in
      insertion order, which is the iteration order of the source.
    - The mutable field [searchIndex] is passed explicitly.
    - [Date] parsing, the current time and [localeCompare] belong to the
      host; the operations that use them take them as parameters. *)

From Stdlib Require Import List String Ascii Bool Arith ZArith Lia.
From Stdlib Require Import Permutation Sorted.
From Stdlib Require Import Reals Lra.
Import ListNotations.

Open Scope string_scope.
Open Scope list_scope.
Open Scope nat_scope.

(** ** String built-ins *)

Module JsString.

Definition code (c : ascii) : nat := nat_of_ascii c.

(** [String.prototype.toLowerCase] on U+0000..U+00FF: the letters A-Z and
    the Latin-1 capitals U+00C0..U+00DE other than the multiplication sign
    U+00D7 move up by 32; every other code unit is fixed. *)
Definition lower_char (c : ascii) : ascii :=
  let n := code c in
  if ((65 <=? n) && (n <=? 90))
     || ((192 <=? n) && (n <=? 222) && negb (n =? 215))
  then ascii_of_nat (n + 32) else c.

Fixpoint map_chars (f : ascii -> ascii) (s : string) : string :=
  match s with
  | EmptyString => EmptyString
  | String c s' => String (f c) (map_chars f s')
  end.

Definition toLowerCase (s : string) : string := map_chars lower_char s.

(** The class [\w] (no unicode flag): [A-Za-z0-9_]. *)
Definition is_word (c : ascii) : bool :=
  let n := code c in
  ((65 <=? n) && (n <=? 90)) || ((97 <=? n) && (n <=? 122))
  || ((48 <=? n) && (n <=? 57)) || (n =? 95).

(** The class [\s] below U+0100: tab, line feed, vertical tab, form feed,
    carriage return, space and the no-break space. *)
Definition is_space (c : ascii) : bool :=
  let n := code c in
  ((9 <=? n) && (n <=? 13)) || (n =? 32) || (n =? 160).

(** [s.replace(/[^\w\s]/g, ' ')]. *)
Definition replace_punct (s : string) : string :=
  map_chars (fun c => if is_word c || is_space c then c else " "%char) s.

Definition starts_with_space (s : string) : bool :=
  match s with
  | EmptyString => false
  | String c _ => is_space c
  end.

(** [s.split(/\s+/)]: the pieces between the maximal runs of white space.
    As in the source language the result is never empty: the empty string
    gives one empty piece, and a string that starts or ends with white
    space gives an empty first or last piece. *)
Fixpoint split_ws (s : string) : list string :=
  match s with
  | EmptyString => [EmptyString]
  | String c s' =>
      let r := split_ws s' in
      if is_space c then
        if starts_with_space s' then r else EmptyString :: r
      else
        match r with
        | t :: ts => String c t :: ts
        | [] => [String c EmptyString]
        end
  end.

(** [s.startsWith(p)]. *)
Definition startsWith (s p : string) : bool := prefix p s.

(** [s.endsWith(p)]. *)
Definition endsWith (s p : string) : bool :=
  (String.length p <=? String.length s)
  && (substring (String.length s - String.length p) (String.length p) s =? p)%string.

(** [s.includes(p)]: [p] occurs in [s] as a contiguous substring. *)
Fixpoint includes (s p : string) : bool :=
  prefix p s
  || match s with
     | EmptyString => false
     | String _ s' => includes s' p
     end.

(** [s.slice(0, -k)] for a non-negative [k]: all but the last [k]
    characters (nothing when [k] exceeds the length). *)
Definition slice_drop_end (s : string) (k : nat) : string :=
  substring 0 (String.length s - k) s.

(** [s.match(/\b\w{3,}\b/g) || []]: the maximal runs of word characters
    that have at least three characters, from left to right. *)
Fixpoint word_runs (s : string) : list string :=
  match s with
  | EmptyString => [EmptyString]
  | String c s' =>
      let r := word_runs s' in
      if is_word c then
        match r with
        | t :: ts => String c t :: ts
        | [] => [String c EmptyString]
        end
      else EmptyString :: r
  end.

Definition match_words3 (s : string) : list string :=
  filter (fun w => 3 <=? String.length w) (word_runs s).

End JsString.

Import JsString.

(** ** Tokenizer and stemmer *)

Definition stopWords : list string :=
  [ "the"; "a"; "an"; "and"; "or"; "but"; "in"; "on"; "at"; "to"; "for"; "of";
    "with"; "by";
    "is"; "are"; "was"; "were"; "be"; "been"; "being"; "have"; "has"; "had";
    "do"; "does"; "did";
    "will"; "would"; "could"; "should"; "may"; "might"; "can"; "must";
    "shall" ].

(** [list.includes(x)] / [set.has(x)] on strings. *)
Definition has (l : list string) (x : string) : bool :=
  existsb (String.eqb x) l.

Definition suffixes : list string :=
  [ "ing"; "ed"; "er"; "est"; "ly"; "tion"; "sion"; "ness"; "ment" ].

(** The [for ... of] loop of [stemWord]: the first suffix of the list that
    ends the word and leaves more than two characters is removed. *)
Fixpoint stemWord_loop (sufs : list string) (word : string) : string :=
  match sufs with
  | [] => word
  | suffix :: rest =>
      if endsWith word suffix && (String.length suffix + 2 <? String.length word)
      then slice_drop_end word (String.length suffix)
      else stemWord_loop rest word
  end.

Definition stemWord (word : string) : string := stemWord_loop suffixes word.

(** The predicate of the [filter] step of [tokenize]. *)
Definition keep_token (token : string) : bool :=
  (2 <? String.length token) && negb (has stopWords token).

(** The raw tokens: the string lower-cased, punctuation blanked, split on
    white space. *)
Definition raw_tokens (text : string) : list string :=
  split_ws (replace_punct (toLowerCase text)).

Definition tokenize (text : string) : list string :=
  match text with
  | EmptyString => []
  | _ => map stemWord (filter keep_token (raw_tokens text))
  end.

(** ** Documents and the inverted index *)

Record Metadata := {
  fileType : option string;
  fileSize : option Z;
  source : option string
}.

Record Document := {
  documentId : string;
  fileName : string;
  ocrText : string;
  uploadDate : string;
  metadata : option Metadata;
  tags : option (list string)
}.

(** [doc.ocrText + ' ' + doc.fileName], the text every operation indexes. *)
Definition content (doc : Document) : string :=
  (ocrText doc ++ " " ++ fileName doc)%string.

(** [searchIndex]: a [Map] from a term to the [Set] of the ids of the
    documents that contain it, both in insertion order. *)
Definition Index := list (string * list string).

Definition index_has (idx : Index) (term : string) : bool :=
  existsb (fun e => (fst e =? term)%string) idx.

Fixpoint index_get (idx : Index) (term : string) : option (list string) :=
  match idx with
  | [] => None
  | (t, ids) :: rest =>
      if (t =? term)%string then Some ids else index_get rest term
  end.

(** [set.add(x)]. *)
Definition set_add (s : list string) (x : string) : list string :=
  if has s x then s else s ++ [x].

(** The body of the inner loop of [buildIndex]: create the posting set of
    the token when the index does not have it, then add the id to it. *)
Fixpoint index_register (idx : Index) (token id : string) : Index :=
  match idx with
  | [] => [(token, set_add [] id)]
  | (t, ids) :: rest =>
      if (t =? token)%string then (t, set_add ids id) :: rest
      else (t, ids) :: index_register rest token id
  end.

Definition index_document (idx : Index) (doc : Document) : Index :=
  fold_left (fun i token => index_register i token (documentId doc))
            (tokenize (content doc)) idx.

(** [searchIndex.clear()]. *)
Definition index_clear (idx : Index) : Index := [].

(** [buildIndex] takes the index held by the service and returns the one
    it leaves behind. *)
Definition buildIndex (searchIndex : Index) (documents : list Document)
  : Index :=
  fold_left index_document documents (index_clear searchIndex).

(** ** Candidate selection *)

Definition standardSearch (searchIndex : Index) (query : string)
    (documents : list Document) : list Document :=
  let queryTokens := tokenize query in
  if List.length queryTokens =? 0 then documents
  else
    let matchingDocIds :=
      fold_left
        (fun ids token =>
           if index_has searchIndex token then
             match index_get searchIndex token with
             | Some posting => fold_left set_add posting ids
             | None => ids
             end
           else ids)
        queryTokens [] in
    filter (fun doc => has matchingDocIds (documentId doc)) documents.

Definition phraseSearch (query : string) (documents : list Document)
  : list Document :=
  let normalizedQuery := toLowerCase query in
  filter (fun doc => includes (toLowerCase (content doc)) normalizedQuery)
         documents.

(** One row of the matrix of [editDistance]: [c2] is [str2.charAt(i - 1)],
    [up] runs over the row above from column 1, [diag] and [left] are
    [matrix[i - 1][j - 1]] and [matrix[i][j - 1]]. *)
Fixpoint editDistance_row (c2 : ascii) (str1 : string) (up : list nat)
    (diag left : nat) : list nat :=
  match str1, up with
  | String c1 str1', u :: up' =>
      let v := if Ascii.eqb c2 c1 then diag
               else Nat.min (diag + 1) (Nat.min (left + 1) (u + 1)) in
      v :: editDistance_row c2 str1' up' u v
  | _, _ => []
  end.

(** The rows for the remaining characters of [str2]; [prev] is row [i]. *)
Fixpoint editDistance_rows (str2 str1 : string) (i : nat) (prev : list nat)
  : list nat :=
  match str2 with
  | EmptyString => prev
  | String c2 str2' =>
      editDistance_rows str2' str1 (S i)
        (S i :: editDistance_row c2 str1 (tl prev) (hd 0 prev) (S i))
  end.

Definition editDistance (str1 str2 : string) : nat :=
  last (editDistance_rows str2 str1 0 (seq 0 (S (String.length str1)))) 0.

Definition threshold : nat := 2.

Definition fuzzySearch (query : string) (documents : list Document)
  : list Document :=
  let queryTokens := tokenize query in
  filter
    (fun doc =>
       let docTokens := tokenize (content doc) in
       existsb
         (fun queryToken =>
            existsb (fun docToken =>
                       editDistance queryToken docToken <=? threshold)
                    docTokens)
         queryTokens)
    documents.

(** ** Numbers

    A score is a double in the source.  The model keeps the real number a
    finite double stands for and the three special values. *)

Inductive jsnum : Type :=
| Num (r : R)
| PosInfinity
| NegInfinity
| NaN.

Definition Rsign (r : R) : comparison :=
  if Rlt_dec r 0 then Lt else if Rlt_dec 0 r then Gt else Eq.

Definition jsadd (a b : jsnum) : jsnum :=
  match a, b with
  | NaN, _ | _, NaN => NaN
  | Num x, Num y => Num (x + y)
  | PosInfinity, NegInfinity | NegInfinity, PosInfinity => NaN
  | PosInfinity, _ | _, PosInfinity => PosInfinity
  | NegInfinity, _ | _, NegInfinity => NegInfinity
  end.

Definition jsneg (a : jsnum) : jsnum :=
  match a with
  | Num x => Num (- x)
  | PosInfinity => NegInfinity
  | NegInfinity => PosInfinity
  | NaN => NaN
  end.

Definition jssub (a b : jsnum) : jsnum := jsadd a (jsneg b).

(** The sign of a number as [Array.prototype.sort] reads it: [NaN] counts
    as zero. *)
Definition jssign (a : jsnum) : comparison :=
  match a with
  | Num x => Rsign x
  | PosInfinity => Gt
  | NegInfinity => Lt
  | NaN => Eq
  end.

Definition jsmul (a b : jsnum) : jsnum :=
  match a, b with
  | NaN, _ | _, NaN => NaN
  | Num x, Num y => Num (x * y)
  | Num x, i | i, Num x =>
      match Rsign x with
      | Eq => NaN
      | Gt => i
      | Lt => jsneg i
      end
  | PosInfinity, PosInfinity | NegInfinity, NegInfinity => PosInfinity
  | PosInfinity, NegInfinity | NegInfinity, PosInfinity => NegInfinity
  end.

(** [Math.log] of a finite number. *)
Definition jslog (x : R) : jsnum :=
  match Rsign x with
  | Gt => Num (ln x)
  | Eq => NegInfinity
  | Lt => NaN
  end.

(** [x || 0] on numbers. *)
Definition or_zero (a : jsnum) : jsnum :=
  match a with
  | NaN => Num 0
  | _ => a
  end.

(** [a >= 0] and [a < b] as the source language evaluates them. *)
Definition js_nonneg (a : jsnum) : Prop :=
  match a with
  | Num x => (0 <= x)%R
  | PosInfinity => True
  | NegInfinity | NaN => False
  end.

Definition js_lt (a b : jsnum) : Prop :=
  match a, b with
  | NaN, _ | _, NaN => False
  | Num x, Num y => (x < y)%R
  | NegInfinity, Num _ | NegInfinity, PosInfinity | Num _, PosInfinity => True
  | _, _ => False
  end.

(** ** Relevance scorer *)

(** [docTokenCount]: a [Map] from a token to its number of occurrences. *)
Definition Counts := list (string * nat).

Fixpoint counts_get (m : Counts) (token : string) : option nat :=
  match m with
  | [] => None
  | (t, n) :: rest =>
      if (t =? token)%string then Some n else counts_get rest token
  end.

Fixpoint counts_set (m : Counts) (token : string) (v : nat) : Counts :=
  match m with
  | [] => [(token, v)]
  | (t, n) :: rest =>
      if (t =? token)%string then (t, v) :: rest
      else (t, n) :: counts_set rest token v
  end.

(** [m.get(token) || 0]. *)
Definition counts_get0 (m : Counts) (token : string) : nat :=
  match counts_get m token with
  | Some n => n
  | None => 0
  end.

Definition count_tokens (docTokens : list string) : Counts :=
  fold_left (fun m token => counts_set m token (counts_get0 m token + 1))
            docTokens [].

Definition getDocumentFrequency (term : string) (documents : list Document)
  : nat :=
  List.length
    (filter (fun doc => has (tokenize (content doc)) term) documents).

(** The contribution [tf * idf] of one query token. *)
Definition tf_idf (docTokenCount : Counts) (docTokens : list string)
    (allDocuments : list Document) (queryToken : string) : jsnum :=
  let tf := (INR (counts_get0 docTokenCount queryToken)
             / INR (List.length docTokens))%R in
  let df := getDocumentFrequency queryToken allDocuments in
  let idf := jslog (INR (List.length allDocuments) / INR (df + 1))%R in
  jsmul (Num tf) idf.

Definition calculateRelevance (query : string) (document : Document)
    (allDocuments : list Document) : jsnum :=
  let queryTokens := tokenize query in
  let docTokens := tokenize (content document) in
  if (List.length queryTokens =? 0) || (List.length docTokens =? 0)
  then Num 0
  else
    let docTokenCount := count_tokens docTokens in
    let score :=
      fold_left
        (fun score queryToken =>
           jsadd score (tf_idf docTokenCount docTokens allDocuments queryToken))
        queryTokens (Num 0) in
    let filenameTokens := tokenize (fileName document) in
    let filenameMatches :=
      List.length (filter (fun token => has filenameTokens token) queryTokens) in
    let score := jsadd score (jsmul (Num (INR filenameMatches)) (Num (1 / 2))) in
    if includes (toLowerCase (content document)) (toLowerCase query)
    then jsadd score (Num 1)
    else score.

(** ** Arrays *)

(** [arr.slice(start, end)] with integer arguments: a negative argument
    counts from the end, and both are clamped to the array. *)
Definition slice {A : Type} (arr : list A) (start stop : Z) : list A :=
  let len := Z.of_nat (List.length arr) in
  let k := if (start <? 0)%Z then Z.max (len + start) 0 else Z.min start len in
  let final := if (stop <? 0)%Z then Z.max (len + stop) 0 else Z.min stop len in
  firstn (Z.to_nat (final - k)) (skipn (Z.to_nat k) arr).

(** [arr.sort(cmp)]: a stable sort; [cmp a b] is the sign of the number the
    comparison function returns.  An element goes before the first element
    of the sorted rest that does not compare below it, so that elements that
    compare equal keep their order.  (The language fixes the result for a
    consistent comparison function only; for any other the model is one of
    the orders an engine may produce, always a permutation.) *)
Fixpoint sort_insert {A : Type} (cmp : A -> A -> comparison) (x : A)
    (sorted : list A) : list A :=
  match sorted with
  | [] => [x]
  | y :: rest =>
      match cmp x y with
      | Gt => y :: sort_insert cmp x rest
      | _ => x :: sorted
      end
  end.

Fixpoint sort_by {A : Type} (cmp : A -> A -> comparison) (arr : list A)
  : list A :=
  match arr with
  | [] => []
  | x :: rest => sort_insert cmp x (sort_by cmp rest)
  end.

(** ** Filters, sorting and the search entry point *)

Record Filters := {
  dateFrom : option string;
  dateTo : option string;
  fileTypes : option (list string);
  sources : option (list string);
  filter_tags : option (list string);
  minSize : option Z;
  maxSize : option Z
}.

(** [filters = {}]. *)
Definition noFilters : Filters :=
  {| dateFrom := None; dateTo := None; fileTypes := None; sources := None;
     filter_tags := None; minSize := None; maxSize := None |}.

Record Options := {
  filters : Filters;
  sortBy : string;
  sortOrder : string;
  limit : Z;
  offset : Z;
  fuzzy : bool;
  exactPhrase : bool
}.

(** The defaults of the destructuring in [search]. *)
Definition defaultOptions : Options :=
  {| filters := noFilters; sortBy := "relevance"; sortOrder := "desc";
     limit := 50; offset := 0; fuzzy := false; exactPhrase := false |}.

(** A result: the fields of the document, spread, and [relevanceScore]. *)
Record Result := {
  res_doc : Document;
  relevanceScore : jsnum
}.

Record Pagination := {
  pg_limit : Z;
  pg_offset : Z;
  hasMore : bool
}.

Record SearchResponse := {
  results : list Result;
  total : nat;
  resp_query : string;
  resp_filters : Filters;
  pagination : Pagination
}.

(** Truthiness of an optional string, number or array with elements. *)
Definition truthy_string (s : option string) : bool :=
  match s with
  | Some s => negb (s =? "")%string
  | None => false
  end.

Definition truthy_num (z : option Z) : bool :=
  match z with
  | Some z => negb (z =? 0)%Z
  | None => false
  end.

Definition nonempty_list (l : option (list string)) : bool :=
  match l with
  | Some l => 0 <? List.length l
  | None => false
  end.

(** [doc.metadata?.fileSize || 0]. *)
Definition fileSize0 (doc : Document) : Z :=
  match metadata doc with
  | Some m => match fileSize m with Some z => z | None => 0%Z end
  | None => 0%Z
  end.

Section Host.

(** What the host provides: the time value [new Date(s)] parses from a
    string ([None] for an invalid date), the time value of [new Date()],
    and [String.prototype.localeCompare]. *)
Variable Date_parse : string -> option Z.
Variable Date_now : Z.
Variable localeCompare : string -> string -> Z.

Definition date_filter (filters : Filters) (doc : Document) : bool :=
  let docDate := Date_parse (uploadDate doc) in
  let fromDate :=
    if truthy_string (dateFrom filters)
    then match dateFrom filters with Some s => Date_parse s | None => None end
    else Date_parse "1900-01-01" in
  let toDate :=
    if truthy_string (dateTo filters)
    then match dateTo filters with Some s => Date_parse s | None => None end
    else Some Date_now in
  match docDate, fromDate, toDate with
  | Some d, Some f, Some t => (f <=? d)%Z && (d <=? t)%Z
  | _, _, _ => false
  end.

Definition fileType_filter (types : list string) (doc : Document) : bool :=
  existsb
    (fun type =>
       match metadata doc with
       | Some m =>
           match fileType m with
           | Some ft => includes ft type
           | None => false
           end
       | None => false
       end
       || includes (toLowerCase (fileName doc)) type)
    types.

Definition source_filter (srcs : list string) (doc : Document) : bool :=
  match metadata doc with
  | Some m =>
      match source m with
      | Some s => has srcs s
      | None => false
      end
  | None => false
  end.

Definition tag_filter (wanted : list string) (doc : Document) : bool :=
  match tags doc with
  | Some ts => existsb (fun tag => has wanted tag) ts
  | None => false
  end.

Definition size_filter (filters : Filters) (doc : Document) : bool :=
  let size := fileSize0 doc in
  let lo := if truthy_num (minSize filters)
            then match minSize filters with Some z => z | None => 0%Z end
            else 0%Z in
  (lo <=? size)%Z
  && (if truthy_num (maxSize filters)
      then match maxSize filters with
           | Some z => (size <=? z)%Z
           | None => true
           end
      else true).

Definition applyFilters (results : list Document) (filters : Filters)
  : list Document :=
  let filtered := results in
  let filtered :=
    if truthy_string (dateFrom filters) || truthy_string (dateTo filters)
    then filter (date_filter filters) filtered else filtered in
  let filtered :=
    if nonempty_list (fileTypes filters)
    then filter (fileType_filter
                   (match fileTypes filters with Some l => l | None => [] end))
                filtered
    else filtered in
  let filtered :=
    if nonempty_list (sources filters)
    then filter (source_filter
                   (match sources filters with Some l => l | None => [] end))
                filtered
    else filtered in
  let filtered :=
    if nonempty_list (filter_tags filters)
    then filter (tag_filter
                   (match filter_tags filters with Some l => l | None => [] end))
                filtered
    else filtered in
  let filtered :=
    if truthy_num (minSize filters) || truthy_num (maxSize filters)
    then filter (size_filter filters) filtered else filtered in
  filtered.

(** The number the comparison function of [sortResults] returns. *)
Definition comparator (sortBy sortOrder : string) (a b : Result) : jsnum :=
  let multiplier := if (sortOrder =? "desc")%string then Num (-1) else Num 1 in
  let comparison :=
    if (sortBy =? "relevance")%string then
      jssub (or_zero (relevanceScore a)) (or_zero (relevanceScore b))
    else if (sortBy =? "date")%string then
      match Date_parse (uploadDate (res_doc a)),
            Date_parse (uploadDate (res_doc b)) with
      | Some x, Some y => Num (IZR (x - y))
      | _, _ => NaN
      end
    else if (sortBy =? "name")%string then
      Num (IZR (localeCompare (fileName (res_doc a)) (fileName (res_doc b))))
    else if (sortBy =? "size")%string then
      Num (IZR (fileSize0 (res_doc a) - fileSize0 (res_doc b)))
    else Num 0 in
  jsmul comparison multiplier.

Definition sortResults (results : list Result) (sortBy sortOrder : string)
  : list Result :=
  sort_by (fun a b => jssign (comparator sortBy sortOrder a b)) results.

(** The candidates of a call: exactly one strategy runs. *)
Definition candidates (searchIndex : Index) (query : string)
    (documents : list Document) (options : Options) : list Document :=
  if exactPhrase options then phraseSearch query documents
  else if fuzzy options then fuzzySearch query documents
  else standardSearch searchIndex query documents.

Definition search (searchIndex : Index) (query : string)
    (documents : list Document) (options : Options) : SearchResponse :=
  let results := candidates searchIndex query documents options in
  let results := applyFilters results (filters options) in
  let results :=
    map (fun result =>
           {| res_doc := result;
              relevanceScore := calculateRelevance query result documents |})
        results in
  let results := sortResults results (sortBy options) (sortOrder options) in
  let total := List.length results in
  let results :=
    slice results (offset options) (offset options + limit options) in
  {| results := results;
     total := total;
     resp_query := query;
     resp_filters := filters options;
     pagination :=
       {| pg_limit := limit options;
          pg_offset := offset options;
          hasMore := (offset options + limit options <? Z.of_nat total)%Z |}
  |}.

End Host.

(** ** Suggestions *)

(** One candidate offered to the set of suggestions: it is added when it
    starts with the normalized query and the set is below [limit * 2]. *)
Definition offer (normalizedQuery : string) (limit : Z)
    (suggestions : list string) (word : string) : list string :=
  if startsWith word normalizedQuery
     && (Z.of_nat (List.length suggestions) <? limit * 2)%Z
  then set_add suggestions word
  else suggestions.

Definition getSuggestions (searchIndex : Index) (partialQuery : string)
    (documents : list Document) (limit : Z) : list string :=
  if (partialQuery =? "")%string || (String.length partialQuery <? 2) then []
  else
    let normalizedQuery := toLowerCase partialQuery in
    let suggestions :=
      fold_left (fun s entry => offer normalizedQuery limit s (fst entry))
                searchIndex [] in
    let suggestions :=
      fold_left
        (fun s doc =>
           fold_left (offer normalizedQuery limit)
                     (match_words3 (toLowerCase (content doc))) s)
        documents suggestions in
    sort_by (fun a b => Nat.compare (String.length a) (String.length b))
            (slice suggestions 0 limit).

(** ** Reading the index and the score

    Auxiliary definitions the statements below use. *)

(** [searchIndex.get(term)], read as the empty set when the term is absent. *)
Definition postings (idx : Index) (term : string) : list string :=
  match index_get idx term with
  | Some ids => ids
  | None => []
  end.

(** The real number [tf * idf] of one query token, for a document with the
    tokens [docTokens], in a collection that is not empty. *)
Definition term_value (docTokens : list string) (allDocuments : list Document)
    (queryToken : string) : R :=
  (INR (count_occ string_dec docTokens queryToken)
   / INR (List.length docTokens)
   * ln (INR (List.length allDocuments)
         / INR (getDocumentFrequency queryToken allDocuments + 1)))%R.

(** The number of query tokens among the tokens of the file name. *)
Definition filenameMatches (query : string) (document : Document) : nat :=
  List.length
    (filter (fun token => has (tokenize (fileName document)) token)
            (tokenize query)).

(** The score before the exact-phrase boost: the TF-IDF sum and the
    file-name boost. *)
Definition base_value (query : string) (document : Document)
    (allDocuments : list Document) : R :=
  (fold_left
     (fun s queryToken =>
        s + term_value (tokenize (content document)) allDocuments queryToken)
     (tokenize query) 0
   + INR (filenameMatches query document) * (1 / 2))%R.

(** ** Example data

    The two documents of the end-to-end example of the specification (the
    fields it leaves out are empty), and a host whose [Date] parser knows the
    one date the source itself writes, 1900-01-01, midnight UTC. *)

Module Demo.

Definition d1 : Document :=
  {| documentId := "d1"; fileName := "Census_1920.pdf";
     ocrText := "Smith John factory worker"; uploadDate := "";
     metadata := None; tags := None |}.

Definition d2 : Document :=
  {| documentId := "d2"; fileName := "Immigration.jpg";
     ocrText := "Smith John laborer Ireland"; uploadDate := "";
     metadata := None; tags := None |}.

Definition Date_parse (s : string) : option Z :=
  if (s =? "1900-01-01")%string then Some (-2208988800000)%Z else None.

Definition Date_now : Z := 1793664000000%Z.

Definition localeCompare (a b : string) : Z :=
  match String.compare a b with
  | Lt => (-1)%Z
  | Eq => 0%Z
  | Gt => 1%Z
  end.

(** The first document with its two first words exchanged. *)
Definition d1_swapped : Document :=
  {| documentId := "d3"; fileName := "Census_1920.pdf";
     ocrText := "John Smith factory worker"; uploadDate := "";
     metadata := None; tags := None |}.

(** Two documents with the same tokens and the same file name; only the
    first contains the phrase "of the". *)
Definition hill1 : Document :=
  {| documentId := "h1"; fileName := "hill.txt";
     ocrText := "king of the hill"; uploadDate := "";
     metadata := None; tags := None |}.

Definition hill2 : Document :=
  {| documentId := "h2"; fileName := "hill.txt";
     ocrText := "the king of hill"; uploadDate := "";
     metadata := None; tags := None |}.

(** The options [{exactPhrase: true}], the others at their defaults. *)
Definition phraseOptions : Options :=
  {| filters := noFilters; sortBy := "relevance"; sortOrder := "desc";
     limit := 50; offset := 0; fuzzy := false; exactPhrase := true |}.

(** The options [{limit: 10, offset: 5}]. *)
Definition lateOptions : Options :=
  {| filters := noFilters; sortBy := "relevance"; sortOrder := "desc";
     limit := 10; offset := 5; fuzzy := false; exactPhrase := false |}.

End Demo.

(** ** Further definitions the statements use *)

(** The characters [a-z0-9_]. *)
Definition is_token_char (c : ascii) : bool :=
  let n := code c in
  ((97 <=? n) && (n <=? 122)) || ((48 <=? n) && (n <=? 57)) || (n =? 95).

Fixpoint all_chars (p : ascii -> bool) (s : string) : bool :=
  match s with
  | EmptyString => true
  | String c s' => p c && all_chars p s'
  end.

(** The Levenshtein distance by its recursion on the first characters:
    equal first characters cost nothing, otherwise one substitution,
    insertion or deletion is paid. *)
Fixpoint levenshtein (a : list ascii) : list ascii -> nat :=
  match a with
  | [] => fun b => List.length b
  | x :: a' =>
      fix against (b : list ascii) : nat :=
        match b with
        | [] => S (List.length a')
        | y :: b' =>
            if Ascii.eqb x y then levenshtein a' b'
            else S (Nat.min (levenshtein a' b')
                            (Nat.min (against b') (levenshtein a' b)))
        end
  end.

(** The characters of a string from the last to the first. *)
Definition rev_chars (s : string) : list ascii :=
  rev (list_ascii_of_string s).

(** The invariants of the index as a [Map] of [Set]s: the keys are distinct,
    no posting set has an id twice, none is empty. *)
Definition index_wf (idx : Index) : Prop :=
  NoDup (map fst idx)
  /\ Forall (fun entry => NoDup (snd entry) /\ snd entry <> []) idx.

(** The row of the matrix of [editDistance] that belongs to the characters
    [a] of [str2] read so far (last first), from the column after the
    characters [b] of [str1] (last first) on, as the recursion defines it. *)
Fixpoint levenshtein_row (a b : list ascii) (rest : string) : list nat :=
  match rest with
  | EmptyString => []
  | String c rest' => levenshtein a (c :: b) :: levenshtein_row a (c :: b) rest'
  end.

(** The conjunction of the tests of the filters that are active. *)
Definition passes_filters (Date_parse : string -> option Z) (Date_now : Z)
    (filters : Filters) (doc : Document) : bool :=
  (if truthy_string (dateFrom filters) || truthy_string (dateTo filters)
   then date_filter Date_parse Date_now filters doc else true)
  && (if nonempty_list (fileTypes filters)
      then fileType_filter
             (match fileTypes filters with Some l => l | None => [] end) doc
      else true)
  && (if nonempty_list (sources filters)
      then source_filter
             (match sources filters with Some l => l | None => [] end) doc
      else true)
  && (if nonempty_list (filter_tags filters)
      then tag_filter
             (match filter_tags filters with Some l => l | None => [] end) doc
      else true)
  && (if truthy_num (minSize filters) || truthy_num (maxSize filters)
      then size_filter filters doc else true).

(** No option of the filters is set to a truthy value. *)
Definition no_active_filter (filters : Filters) : bool :=
  negb (truthy_string (dateFrom filters))
  && negb (truthy_string (dateTo filters))
  && negb (nonempty_list (fileTypes filters))
  && negb (nonempty_list (sources filters))
  && negb (nonempty_list (filter_tags filters))
  && negb (truthy_num (minSize filters))
  && negb (truthy_num (maxSize filters)).

(** Further sample data. *)
Module Sample.

(** Filters whose options are all present and falsy. *)
Definition falsyFilters : Filters :=
  {| dateFrom := Some ""; dateTo := None; fileTypes := Some [];
     sources := Some []; filter_tags := None; minSize := Some 0%Z;
     maxSize := Some 0%Z |}.

(** The filters [{dateFrom: '1900-01-01'}]. *)
Definition sinceFilters : Filters :=
  {| dateFrom := Some "1900-01-01"; dateTo := None; fileTypes := None;
     sources := None; filter_tags := None; minSize := None;
     maxSize := None |}.

End Sample.

(** The options with another page: [{...options, offset, limit}]. *)
Definition with_page (options : Options) (off lim : Z) : Options :=
  {| filters := filters options; sortBy := sortBy options;
     sortOrder := sortOrder options; limit := lim; offset := off;
     fuzzy := fuzzy options; exactPhrase := exactPhrase options |}.

(** The order of two scores under the relevance sort: [a] may stand before
    [b]. *)
Definition relevance_ordered (sortOrder : string) (a b : Result) : Prop :=
  exists x y,
    relevanceScore a = Num x /\ relevanceScore b = Num y
    /\ if (sortOrder =? "desc")%string then (y <= x)%R else (x <= y)%R.

(** ** Search analytics *)

Module Analytics.

(** An entry of the search history. *)
Record Entry := {
  query : string;
  resultCount : option Z;
  timestamp : string
}.

Record Summary := {
  totalSearches : nat;
  uniqueQueries : nat;
  averageResultsPerSearch : R;
  topQueries : list (string * nat);
  searchTrends : list (string * nat)
}.

(** [search.resultCount || 0]. *)
Definition resultCount0 (e : Entry) : Z :=
  match resultCount e with
  | Some z => z
  | None => 0%Z
  end.

(** [new Set(arr).size]. *)
Definition distinct (arr : list string) : list string :=
  fold_left set_add arr [].

(** The [Map] that counts the occurrences of each string, as the loops over
    [queryCount] and [dailySearches] build it. *)
Definition tally (arr : list string) : Counts :=
  fold_left (fun m s => counts_set m s (counts_get0 m s + 1)) arr [].

Section Host.

(** What the host provides: the [Date] parser, the current time, the time
    value of a date moved back by a number of days with [setDate], and
    [toDateString]. *)
Variable Date_parse : string -> option Z.
Variable Date_now : Z.
Variable Date_minusDays : Z -> Z -> Z.
Variable toDateString : Z -> string.

(** [new Date(search.timestamp) >= thirtyDaysAgo]. *)
Definition recent (thirtyDaysAgo : Z) (e : Entry) : bool :=
  match Date_parse (timestamp e) with
  | Some t => (thirtyDaysAgo <=? t)%Z
  | None => false
  end.

(** [new Date(search.timestamp).toDateString()], "Invalid Date" for a time
    stamp that does not parse. *)
Definition day_of (e : Entry) : string :=
  match Date_parse (timestamp e) with
  | Some t => toDateString t
  | None => "Invalid Date"
  end.

Definition getSearchAnalytics (searchHistory : list Entry) : Summary :=
  let total := List.length searchHistory in
  let unique := List.length (distinct (map query searchHistory)) in
  if total =? 0 then
    {| totalSearches := total; uniqueQueries := unique;
       averageResultsPerSearch := 0; topQueries := []; searchTrends := [] |}
  else
    let average :=
      (IZR (fold_left (fun sum search => (sum + resultCount0 search)%Z)
                      searchHistory 0%Z)
       / INR total)%R in
    let queryCount := tally (map query searchHistory) in
    let top :=
      slice (sort_by (fun a b => Z.compare (Z.of_nat (snd b)) (Z.of_nat (snd a)))
                     queryCount)
            0 10 in
    let thirtyDaysAgo := Date_minusDays Date_now 30 in
    let dailySearches :=
      tally (map day_of (filter (recent thirtyDaysAgo) searchHistory)) in
    let trends :=
      sort_by (fun a b =>
                 match Date_parse (fst a), Date_parse (fst b) with
                 | Some x, Some y => Z.compare x y
                 | _, _ => Eq
                 end)
              dailySearches in
    {| totalSearches := total; uniqueQueries := unique;
       averageResultsPerSearch := average; topQueries := top;
       searchTrends := trends |}.

End Host.

End Analytics.

(** A sample search history, and a host for it. *)
Module SampleHistory.

Definition history : list Analytics.Entry :=
  [ {| Analytics.query := "smith"; Analytics.resultCount := Some 2%Z;
       Analytics.timestamp := "1900-01-01" |};
    {| Analytics.query := "census"; Analytics.resultCount := None;
       Analytics.timestamp := "" |};
    {| Analytics.query := "smith"; Analytics.resultCount := Some 0%Z;
       Analytics.timestamp := "" |} ].

Definition Date_minusDays (t days : Z) : Z := (t - days * 86400000)%Z.

Definition toDateString (t : Z) : string :=
  if (t =? -2208988800000)%Z then "Mon Jan 01 1900" else "".

End SampleHistory.

(** * Properties *)

(** ** Strings *)

Lemma length_substring_0 (n : nat) (s : string) :
  n <= String.length s -> String.length (substring 0 n s) = n.
Proof.
  revert n; induction s as [|c s IH]; intros [|n] Hn; simpl in *;
    try reflexivity; try lia.
  rewrite IH; lia.
Qed.

Lemma length_slice_drop_end (s : string) (k : nat) :
  String.length (slice_drop_end s k) = String.length s - k.
Proof. unfold slice_drop_end; apply length_substring_0; lia. Qed.

Lemma has_In (l : list string) (x : string) : has l x = true <-> In x l.
Proof.
  unfold has; rewrite existsb_exists; split.
  - intros [y [Hy E]]; apply String.eqb_eq in E; subst; assumption.
  - intros H; exists x; split; [assumption | apply String.eqb_refl].
Qed.

Lemma has_false (l : list string) (x : string) :
  has l x = false <-> ~ In x l.
Proof.
  rewrite <- has_In; destruct (has l x); split; congruence.
Qed.

(** ** Tokenizer *)

(** The stemmer never shortens a word to two characters or fewer. *)
Lemma stemWord_loop_length (sufs : list string) (word : string) :
  2 < String.length word -> 2 < String.length (stemWord_loop sufs word).
Proof.
  intros Hw; induction sufs as [|suffix rest IH]; simpl; [assumption|].
  destruct (endsWith word suffix); simpl; [|assumption].
  destruct (String.length suffix + 2 <? String.length word) eqn:G;
    [|assumption].
  apply Nat.ltb_lt in G; rewrite length_slice_drop_end; lia.
Qed.

Lemma stemWord_length (word : string) :
  2 < String.length word -> 2 < String.length (stemWord word).
Proof. apply stemWord_loop_length. Qed.

Lemma tokenize_In (text token : string) :
  In token (tokenize text) <->
  exists raw, In raw (raw_tokens text) /\ keep_token raw = true
              /\ token = stemWord raw.
Proof.
  assert (G : In token (map stemWord (filter keep_token (raw_tokens text)))
              <-> exists raw, In raw (raw_tokens text)
                              /\ keep_token raw = true /\ token = stemWord raw).
  { rewrite in_map_iff; split.
    - intros [raw [E H]]; apply filter_In in H; destruct H; eauto.
    - intros [raw [H1 [H2 E]]]; exists raw; rewrite filter_In; auto. }
  destruct text as [|c text]; [|exact G].
  simpl; split; [tauto|].
  intros [raw [H1 [H2 _]]]; simpl in H1; destruct H1 as [<-|[]]; discriminate.
Qed.

(** C3, as the code has it: no token of the output has two characters or
    fewer, and every token of the output is the stem of a raw token (a piece
    of the lower-cased text between white space) that has more than two
    characters and is not a stop word.  The stop-word test runs before the
    stemmer, so the stem itself is not tested. *)
Theorem tokenize_long_stems_of_kept (text token : string) :
  In token (tokenize text) ->
  2 < String.length token
  /\ exists raw, In raw (raw_tokens text)
                 /\ token = stemWord raw
                 /\ 2 < String.length raw
                 /\ has stopWords raw = false.
Proof.
  intros H; apply tokenize_In in H; destruct H as [raw [Hin [Hk ->]]].
  unfold keep_token in Hk; apply andb_true_iff in Hk; destruct Hk as [Hl Hs].
  apply Nat.ltb_lt in Hl; apply negb_true_iff in Hs.
  split; [apply stemWord_length; assumption|].
  exists raw; auto.
Qed.

Lemma tokenize_long_stems_of_kept_witness :
  In "walk" (tokenize "Walking home")
  /\ 2 < String.length "walk"
  /\ exists raw, In raw (raw_tokens "Walking home")
                 /\ "walk" = stemWord raw
                 /\ 2 < String.length raw
                 /\ has stopWords raw = false.
Proof.
  assert (H : In "walk" (tokenize "Walking home")) by (simpl; auto).
  split; [exact H|].
  exact (tokenize_long_stems_of_kept "Walking home" "walk" H).
Defined.

(** C3 as stated fails: the stem of "forest" is the stop word "for". *)
Lemma tokenize_emits_stop_word :
  In "for" (tokenize "forest") /\ has stopWords "for" = true.
Proof. split; [simpl; auto | reflexivity]. Qed.

(** ** Standard search on a query without terms *)

(** C2: a query whose tokenization has no term selects every document. *)
Theorem standardSearch_no_terms (searchIndex : Index) (query : string)
    (documents : list Document) :
  tokenize query = [] ->
  standardSearch searchIndex query documents = documents.
Proof. intros H; unfold standardSearch; rewrite H; reflexivity. Qed.

(** An empty query, a query of stop words and a query of short tokens have
    no term. *)
Lemma tokenize_no_terms_examples :
  tokenize "" = [] /\ tokenize "the of" = [] /\ tokenize "ab, c" = [].
Proof. repeat split. Qed.

(** ** Rebuilding the index *)

(** C8: [buildIndex] clears the index it finds, so the index it leaves does
    not depend on the one before; built twice from the same documents it is
    the index built once, and standard search answers alike. *)
Theorem buildIndex_idempotent (searchIndex : Index)
    (documents : list Document) :
  (forall other : Index,
      buildIndex other documents = buildIndex searchIndex documents)
  /\ buildIndex (buildIndex searchIndex documents) documents
     = buildIndex searchIndex documents
  /\ forall (query : string) (docs : list Document),
      standardSearch (buildIndex (buildIndex searchIndex documents) documents)
                     query docs
      = standardSearch (buildIndex searchIndex documents) query docs.
Proof. repeat split. Qed.

Lemma standardSearch_no_terms_witness :
  tokenize "the of" = []
  /\ standardSearch [] "the of" [Demo.d1; Demo.d2]
     = [Demo.d1; Demo.d2].
Proof.
  split; [reflexivity|].
  apply (standardSearch_no_terms [] "the of" [Demo.d1; Demo.d2]).
  reflexivity.
Defined.

(** ** The postings of the index *)

Lemma set_add_In (s : list string) (x y : string) :
  In x (set_add s y) <-> In x s \/ x = y.
Proof.
  unfold set_add; destruct (has s y) eqn:E.
  - apply has_In in E; split; [auto | intros [H | ->]; assumption].
  - rewrite in_app_iff; simpl; intuition.
Qed.

Lemma fold_set_add_In (l acc : list string) (x : string) :
  In x (fold_left set_add l acc) <-> In x acc \/ In x l.
Proof.
  revert acc; induction l as [|y l IH]; intros acc; simpl; [tauto|].
  rewrite IH, set_add_In; intuition.
Qed.

Lemma index_has_false_get (idx : Index) (term : string) :
  index_has idx term = false -> index_get idx term = None.
Proof.
  induction idx as [|[t ids] idx IH]; simpl; [reflexivity|].
  destruct (t =? term)%string; simpl; [discriminate | exact IH].
Qed.

Lemma postings_register (idx : Index) (token id term i : string) :
  In i (postings (index_register idx token id) term)
  <-> In i (postings idx term) \/ (term = token /\ i = id).
Proof.
  unfold postings; induction idx as [|[t ids] idx IH]; simpl.
  - destruct (String.eqb_spec token term) as [->|N]; simpl.
    + intuition.
    + intuition congruence.
  - destruct (String.eqb_spec t token) as [->|N]; simpl.
    + destruct (String.eqb_spec token term) as [->|N'].
      * rewrite set_add_In; intuition.
      * intuition congruence.
    + destruct (String.eqb_spec t term) as [->|N'].
      * intuition congruence.
      * exact IH.
Qed.

Lemma postings_register_all (tokens : list string) (idx : Index)
    (id term i : string) :
  In i (postings
          (fold_left (fun acc token => index_register acc token id) tokens idx)
          term)
  <-> In i (postings idx term) \/ (In term tokens /\ i = id).
Proof.
  revert idx; induction tokens as [|tok tokens IH]; intros idx; simpl.
  - tauto.
  - rewrite IH, postings_register; intuition; subst; auto.
Qed.

Lemma postings_fold_documents (documents : list Document) (idx : Index)
    (term i : string) :
  In i (postings (fold_left index_document documents idx) term)
  <-> In i (postings idx term)
      \/ exists doc, In doc documents /\ documentId doc = i
                     /\ In term (tokenize (content doc)).
Proof.
  revert idx; induction documents as [|d documents IH]; intros idx; simpl.
  - split; [auto | intros [H | [doc [[] _]]]; exact H].
  - rewrite IH; unfold index_document at 1; rewrite postings_register_all.
    split.
    + intros [[H | [H ->]] | [doc [H1 H2]]]; eauto 6.
    + intros [H | [doc [[<- | H1] [<- H3]]]]; eauto 6.
Qed.

(** The postings of a freshly built index: the ids of the documents whose
    tokens contain the term. *)
Lemma postings_buildIndex (searchIndex : Index) (documents : list Document)
    (term i : string) :
  In i (postings (buildIndex searchIndex documents) term)
  <-> exists doc, In doc documents /\ documentId doc = i
                  /\ In term (tokenize (content doc)).
Proof.
  unfold buildIndex; rewrite postings_fold_documents.
  unfold index_clear, postings; simpl; tauto.
Qed.

(** The loop of [standardSearch] that collects [matchingDocIds]. *)
Lemma matching_ids_In (idx : Index) (tokens : list string)
    (acc : list string) (i : string) :
  In i (fold_left
          (fun ids token =>
             if index_has idx token then
               match index_get idx token with
               | Some posting => fold_left set_add posting ids
               | None => ids
               end
             else ids)
          tokens acc)
  <-> In i acc \/ exists token, In token tokens /\ In i (postings idx token).
Proof.
  revert acc; induction tokens as [|tok tokens IH]; intros acc; simpl.
  - split; [auto | intros [H | [t [[] _]]]; exact H].
  - rewrite IH; clear IH.
    assert (E : In i (if index_has idx tok then
                        match index_get idx tok with
                        | Some posting => fold_left set_add posting acc
                        | None => acc
                        end
                      else acc)
                <-> In i acc \/ In i (postings idx tok)).
    { unfold postings; destruct (index_has idx tok) eqn:Hh.
      - destruct (index_get idx tok); [apply fold_set_add_In | simpl; tauto].
      - rewrite (index_has_false_get _ _ Hh); simpl; tauto. }
    rewrite E; split.
    + intros [[H | H] | [t [H1 H2]]]; eauto.
    + intros [H | [t [[<- | H1] H2]]]; eauto.
Qed.

(** The candidates of standard search for a query with a term: the
    documents whose id is in the posting set of some term of the query. *)
Lemma standardSearch_In (idx : Index) (query : string)
    (documents : list Document) (doc : Document) :
  tokenize query <> [] ->
  (In doc (standardSearch idx query documents)
   <-> In doc documents
       /\ exists token, In token (tokenize query)
                        /\ In (documentId doc) (postings idx token)).
Proof.
  intros Hq; unfold standardSearch.
  destruct (tokenize query) as [|t ts] eqn:E; [congruence|].
  cbn [List.length Nat.eqb].
  rewrite filter_In, has_In, matching_ids_In; simpl In at 2.
  intuition.
Qed.

(** ** Tokens of a query extended by a term *)

Lemma map_chars_app (f : ascii -> ascii) (a b : string) :
  map_chars f (a ++ b)%string = (map_chars f a ++ map_chars f b)%string.
Proof. induction a as [|c a IH]; simpl; [reflexivity | rewrite IH; reflexivity]. Qed.

Lemma split_ws_nonempty (s : string) : split_ws s <> [].
Proof.
  induction s as [|c s IH]; simpl; [discriminate|].
  destruct (is_space c).
  - destruct (starts_with_space s); [exact IH | discriminate].
  - destruct (split_ws s); discriminate.
Qed.

Lemma split_ws_cons (s : string) :
  split_ws s = hd EmptyString (split_ws s) :: tl (split_ws s).
Proof.
  pose proof (split_ws_nonempty s) as H.
  destruct (split_ws s); [congruence | reflexivity].
Qed.

Lemma split_ws_starts_with_space (s : string) :
  starts_with_space s = true -> hd EmptyString (split_ws s) = EmptyString.
Proof.
  induction s as [|c s IH]; [discriminate|].
  simpl; intros E; rewrite E.
  destruct (starts_with_space s); [apply IH; reflexivity | reflexivity].
Qed.

Lemma filter_keep_split_ws (s : string) :
  filter keep_token (split_ws s)
  = filter keep_token [hd EmptyString (split_ws s)]
    ++ filter keep_token (tl (split_ws s)).
Proof.
  rewrite (split_ws_cons s) at 1; cbn [filter].
  destruct (keep_token (hd EmptyString (split_ws s))); reflexivity.
Qed.

(** Splitting [a], a space and [b]: the first piece is the first piece of
    [a], and the pieces kept after it are those kept of [a] and of [b]. *)
Lemma split_ws_app_space (a b : string) :
  hd EmptyString (split_ws (a ++ " " ++ b)%string) = hd EmptyString (split_ws a)
  /\ filter keep_token (tl (split_ws (a ++ " " ++ b)%string))
     = filter keep_token (tl (split_ws a)) ++ filter keep_token (split_ws b).
Proof.
  induction a as [|c a IH].
  - change (EmptyString ++ " " ++ b)%string with (String " "%char b).
    cbn [split_ws]; change (is_space " "%char) with true; cbn iota.
    destruct (starts_with_space b) eqn:E.
    + split; [apply split_ws_starts_with_space; exact E|].
      rewrite (filter_keep_split_ws b).
      rewrite (split_ws_starts_with_space b E); reflexivity.
    + split; reflexivity.
  - destruct IH as [IHh IHt].
    change (String c a ++ " " ++ b)%string with (String c (a ++ " " ++ b))%string.
    cbn [split_ws].
    rewrite (split_ws_cons (a ++ " " ++ b)%string), (split_ws_cons a).
    destruct (is_space c).
    + destruct a as [|c' a].
      * change (EmptyString ++ " " ++ b)%string with (String " "%char b) in *.
        cbn [starts_with_space]; change (is_space " "%char) with true.
        cbn iota; cbn [hd tl]; split; [exact IHh | exact IHt].
      * change (String c' a ++ " " ++ b)%string
          with (String c' (a ++ " " ++ b))%string in *.
        cbn [starts_with_space]; destruct (is_space c').
        -- cbn [hd tl]; split; [exact IHh | exact IHt].
        -- cbn [hd tl]; split; [reflexivity|].
           cbn [filter]; rewrite IHh, IHt.
           destruct (keep_token (hd EmptyString (split_ws (String c' a))));
             reflexivity.
    + cbn [hd tl]; rewrite IHh; split; [reflexivity | exact IHt].
Qed.

Lemma tokenize_unfold (text : string) :
  tokenize text = map stemWord (filter keep_token (raw_tokens text)).
Proof. destruct text; reflexivity. Qed.

(** The tokens of a query followed by a space and more text are the tokens
    of the query followed by those of the text. *)
Lemma tokenize_app_space (a b : string) :
  tokenize (a ++ " " ++ b)%string = tokenize a ++ tokenize b.
Proof.
  rewrite !tokenize_unfold; unfold raw_tokens, toLowerCase, replace_punct.
  rewrite !map_chars_app.
  change (map_chars _ (map_chars lower_char " ")) with " ".
  rewrite <- map_app; f_equal.
  set (A := map_chars _ (map_chars lower_char a)).
  set (B := map_chars _ (map_chars lower_char b)).
  destruct (split_ws_app_space A B) as [Hh Ht].
  rewrite (filter_keep_split_ws (A ++ " " ++ B)%string), Hh, Ht.
  rewrite (filter_keep_split_ws A), app_assoc; reflexivity.
Qed.

(** C4, as the code has it: on an index freshly built from the documents,
    the candidates of a query that has at least one term are the documents
    whose id is in the union of the posting sets of its terms, a posting set
    holding the ids of the documents that contain the term; so the
    candidates of such a query are among the candidates of the query
    extended by a space and any further text.  (A query without a term
    selects every document, and is outside this statement.) *)
Theorem standardSearch_union_monotone (searchIndex : Index)
    (documents : list Document) (Q t : string) :
  tokenize Q <> [] ->
  (forall doc,
      In doc (standardSearch (buildIndex searchIndex documents) Q documents)
      <-> In doc documents
          /\ exists token,
               In token (tokenize Q)
               /\ In (documentId doc)
                     (postings (buildIndex searchIndex documents) token))
  /\ (forall token i,
         In i (postings (buildIndex searchIndex documents) token)
         <-> exists d, In d documents /\ documentId d = i
                       /\ In token (tokenize (content d)))
  /\ incl (standardSearch (buildIndex searchIndex documents) Q documents)
          (standardSearch (buildIndex searchIndex documents)
                          (Q ++ " " ++ t)%string documents).
Proof.
  intros HQ; split; [|split].
  - intros doc; apply standardSearch_In; exact HQ.
  - intros token i; apply postings_buildIndex.
  - intros doc H.
    assert (HQt : tokenize (Q ++ " " ++ t)%string <> []).
    { rewrite tokenize_app_space; destruct (tokenize Q); [congruence|].
      discriminate. }
    apply (standardSearch_In _ _ _ _ HQ) in H.
    apply (standardSearch_In _ _ _ _ HQt).
    destruct H as [Hd [token [Ht Hp]]]; split; [exact Hd|].
    exists token; split; [|exact Hp].
    rewrite tokenize_app_space; apply in_or_app; left; exact Ht.
Qed.

Lemma standardSearch_union_monotone_witness :
  tokenize "Smith" <> []
  /\ incl (standardSearch (buildIndex [] [Demo.d1; Demo.d2]) "Smith"
                          [Demo.d1; Demo.d2])
          (standardSearch (buildIndex [] [Demo.d1; Demo.d2])
                          "Smith factory" [Demo.d1; Demo.d2]).
Proof.
  assert (H : tokenize "Smith" <> []) by (vm_compute; discriminate).
  split; [exact H|].
  exact (proj2 (proj2 (standardSearch_union_monotone
                         [] [Demo.d1; Demo.d2] "Smith" "factory" H))).
Defined.

(** C4 as stated fails for a query without a term: "the" selects both
    example documents, "the factory" only the first. *)
Lemma standardSearch_added_term_shrinks :
  In Demo.d2
     (standardSearch (buildIndex [] [Demo.d1; Demo.d2]) "the"
                     [Demo.d1; Demo.d2])
  /\ ~ In Demo.d2
          (standardSearch (buildIndex [] [Demo.d1; Demo.d2])
                          ("the" ++ " " ++ "factory")%string
                          [Demo.d1; Demo.d2]).
Proof.
  split.
  - vm_compute; auto.
  - vm_compute; intros [H | []]; discriminate H.
Qed.

(** ** Arrays: sorting and slicing *)

Lemma sort_insert_perm {A : Type} (cmp : A -> A -> comparison) (x : A)
    (l : list A) :
  Permutation (sort_insert cmp x l) (x :: l).
Proof.
  induction l as [|y l IH]; simpl; [apply Permutation_refl|].
  destruct (cmp x y); try apply Permutation_refl.
  eapply perm_trans; [apply perm_skip; exact IH | apply perm_swap].
Qed.

Lemma sort_by_perm {A : Type} (cmp : A -> A -> comparison) (l : list A) :
  Permutation (sort_by cmp l) l.
Proof.
  induction l as [|x l IH]; simpl; [apply perm_nil|].
  eapply perm_trans; [apply sort_insert_perm | apply perm_skip; exact IH].
Qed.

Lemma sort_by_length {A : Type} (cmp : A -> A -> comparison) (l : list A) :
  List.length (sort_by cmp l) = List.length l.
Proof. apply Permutation_length, sort_by_perm. Qed.

Lemma sort_by_In {A : Type} (cmp : A -> A -> comparison) (l : list A) (x : A) :
  In x (sort_by cmp l) <-> In x l.
Proof.
  split; apply Permutation_in;
    [apply sort_by_perm | apply Permutation_sym, sort_by_perm].
Qed.

Lemma slice_In {A : Type} (l : list A) (start stop : Z) (x : A) :
  In x (slice l start stop) -> In x l.
Proof.
  unfold slice; intros H.
  set (k := Z.to_nat _) in H; set (n := Z.to_nat _) in H.
  rewrite <- (firstn_skipn n l); apply in_or_app; right.
  rewrite <- (firstn_skipn k (skipn n l)); apply in_or_app; left; exact H.
Qed.

(** The length of a slice with a non-negative start and length. *)
Lemma slice_length {A : Type} (l : list A) (start count : Z) :
  (0 <= start)%Z -> (0 <= count)%Z ->
  Z.of_nat (List.length (slice l start (start + count)))
  = Z.min count (Z.max 0 (Z.of_nat (List.length l) - start)).
Proof.
  intros Hs Hc; unfold slice.
  destruct (Z.ltb_spec start 0) as [?|_]; [lia|].
  destruct (Z.ltb_spec (start + count) 0) as [?|_]; [lia|].
  rewrite length_firstn, length_skipn; lia.
Qed.

(** ** Suggestions *)

Lemma offer_keeps_prefix (normalizedQuery : string) (limit : Z)
    (suggestions : list string) (word : string) :
  (forall s, In s suggestions -> startsWith s normalizedQuery = true) ->
  forall s, In s (offer normalizedQuery limit suggestions word) ->
            startsWith s normalizedQuery = true.
Proof.
  intros Hs s; unfold offer.
  destruct (startsWith word normalizedQuery) eqn:E; simpl; [|apply Hs].
  destruct (Z.of_nat (List.length suggestions) <? limit * 2)%Z; [|apply Hs].
  rewrite set_add_In; intros [H | ->]; [apply Hs; exact H | exact E].
Qed.

Lemma fold_offer_keeps_prefix (normalizedQuery : string) (limit : Z)
    (words suggestions : list string) :
  (forall s, In s suggestions -> startsWith s normalizedQuery = true) ->
  forall s, In s (fold_left (offer normalizedQuery limit) words suggestions) ->
            startsWith s normalizedQuery = true.
Proof.
  revert suggestions; induction words as [|w words IH]; intros sug Hs; simpl.
  - exact Hs.
  - apply IH, offer_keeps_prefix, Hs.
Qed.

(** C9: with a partial query of two characters or more every suggestion
    starts with the lower-cased partial query; with a shorter one, the empty
    one included, there is no suggestion. *)
Theorem getSuggestions_prefix (searchIndex : Index) (partialQuery : string)
    (documents : list Document) (limit : Z) :
  (2 <= String.length partialQuery ->
   forall s, In s (getSuggestions searchIndex partialQuery documents limit) ->
             startsWith s (toLowerCase partialQuery) = true)
  /\ (String.length partialQuery < 2 ->
      getSuggestions searchIndex partialQuery documents limit = []).
Proof.
  unfold getSuggestions; split.
  - intros _ s.
    destruct ((partialQuery =? "")%string || (String.length partialQuery <? 2));
      [intros []|].
    rewrite sort_by_In; intros H; apply slice_In in H; revert s H.
    set (nq := toLowerCase partialQuery).
    assert (H1 : forall s,
               In s (fold_left (fun s entry => offer nq limit s (fst entry))
                               searchIndex []) ->
               startsWith s nq = true).
    { generalize (@nil string) (fun s (H : In s (@nil string)) =>
                                  False_ind (startsWith s nq = true) H).
      induction searchIndex as [|e idx IH]; intros acc Hacc; simpl.
      - exact Hacc.
      - apply IH, offer_keeps_prefix, Hacc. }
    revert H1; generalize (fold_left (fun s entry => offer nq limit s (fst entry))
                                     searchIndex []).
    induction documents as [|d docs IH]; intros acc Hacc; simpl.
    + exact Hacc.
    + apply IH, fold_offer_keeps_prefix, Hacc.
  - intros H; apply Nat.ltb_lt in H; rewrite H, orb_true_r; reflexivity.
Qed.

Lemma getSuggestions_prefix_witness :
  (2 <= String.length "Im"
   /\ In "immigration"
         (getSuggestions (buildIndex [] [Demo.d1; Demo.d2]) "Im"
                         [Demo.d1; Demo.d2] 5)
   /\ startsWith "immigration" (toLowerCase "Im") = true)
  /\ (String.length "j" < 2
      /\ getSuggestions (buildIndex [] [Demo.d1; Demo.d2]) "j"
                        [Demo.d1; Demo.d2] 5 = []).
Proof.
  pose proof (getSuggestions_prefix
                (buildIndex [] [Demo.d1; Demo.d2]) "Im"
                [Demo.d1; Demo.d2] 5) as [H _].
  pose proof (getSuggestions_prefix
                (buildIndex [] [Demo.d1; Demo.d2]) "j"
                [Demo.d1; Demo.d2] 5) as [_ H'].
  assert (L : 2 <= String.length "Im") by (simpl; lia).
  assert (I : In "immigration"
                 (getSuggestions (buildIndex [] [Demo.d1; Demo.d2]) "Im"
                                 [Demo.d1; Demo.d2] 5))
    by (vm_compute; auto).
  assert (L' : String.length "j" < 2) by (simpl; lia).
  split; [split; [exact L | split; [exact I | exact (H L _ I)]]|].
  split; [exact L' | exact (H' L')].
Defined.

(** ** The search pipeline *)

Lemma standardSearch_incl (idx : Index) (query : string)
    (documents : list Document) (doc : Document) :
  In doc (standardSearch idx query documents) -> In doc documents.
Proof.
  unfold standardSearch.
  destruct (List.length (tokenize query) =? 0); [auto|].
  intros H; apply filter_In in H; tauto.
Qed.

(** The phrase strategy selects a document exactly when its lower-cased
    content contains the lower-cased query. *)
Lemma phraseSearch_In (query : string) (documents : list Document)
    (doc : Document) :
  In doc (phraseSearch query documents)
  <-> In doc documents
      /\ includes (toLowerCase (content doc)) (toLowerCase query) = true.
Proof. unfold phraseSearch; apply filter_In. Qed.

Lemma fuzzySearch_incl (query : string) (documents : list Document)
    (doc : Document) :
  In doc (fuzzySearch query documents) -> In doc documents.
Proof. unfold fuzzySearch; intros H; apply filter_In in H; tauto. Qed.

Lemma filter_if_incl {A : Type} (b : bool) (f : A -> bool) (l : list A)
    (x : A) :
  In x (if b then filter f l else l) -> In x l.
Proof. destruct b; [intros H; apply filter_In in H; tauto | auto]. Qed.

Section HostProperties.

Variable Date_parse : string -> option Z.
Variable Date_now : Z.
Variable localeCompare : string -> string -> Z.

Lemma applyFilters_incl (results : list Document) (filters : Filters)
    (doc : Document) :
  In doc (applyFilters Date_parse Date_now results filters) ->
  In doc results.
Proof.
  unfold applyFilters; intros H.
  repeat (apply filter_if_incl in H); exact H.
Qed.

Lemma candidates_incl (idx : Index) (query : string)
    (documents : list Document) (options : Options) (doc : Document) :
  In doc (candidates idx query documents options) -> In doc documents.
Proof.
  unfold candidates; destruct (exactPhrase options).
  - intros H; apply phraseSearch_In in H; tauto.
  - destruct (fuzzy options);
      [apply fuzzySearch_incl | apply standardSearch_incl].
Qed.

(** [total] is the number of candidates that pass the filters. *)
Lemma search_total (idx : Index) (query : string)
    (documents : list Document) (options : Options) :
  total (search Date_parse Date_now localeCompare idx query documents options)
  = List.length
      (applyFilters Date_parse Date_now
                    (candidates idx query documents options)
                    (filters options)).
Proof.
  unfold search; cbn [total]; unfold sortResults.
  rewrite sort_by_length, length_map; reflexivity.
Qed.

(** The page has [limit] results, or what is left after [offset]. *)
Lemma search_results_length (idx : Index) (query : string)
    (documents : list Document) (options : Options) :
  (0 <= limit options)%Z -> (0 <= offset options)%Z ->
  Z.of_nat
    (List.length
       (results (search Date_parse Date_now localeCompare idx query
                        documents options)))
  = Z.min (limit options)
          (Z.max 0
             (Z.of_nat
                (total (search Date_parse Date_now localeCompare idx query
                               documents options))
              - offset options)).
Proof.
  intros Hl Ho; unfold search; cbn [results total].
  apply slice_length; assumption.
Qed.

Lemma search_results_In (idx : Index) (query : string)
    (documents : list Document) (options : Options) (r : Result) :
  In r (results (search Date_parse Date_now localeCompare idx query
                        documents options)) ->
  In (res_doc r)
     (applyFilters Date_parse Date_now
                   (candidates idx query documents options)
                   (filters options))
  /\ relevanceScore r = calculateRelevance query (res_doc r) documents.
Proof.
  unfold search; cbn [results]; intros H.
  apply slice_In in H; unfold sortResults in H.
  apply sort_by_In in H; apply in_map_iff in H.
  destruct H as [doc [<- H]]; cbn [res_doc relevanceScore]; auto.
Qed.

(** C5, as the code has it: with non-negative [limit] and [offset] the
    page has exactly [min(limit, max(0, total - offset))] results, hence
    at most [min(limit, total - offset)] when [offset] does not exceed
    [total]; [total] is the number of results after the filters and before
    the slice; [hasMore] is [offset + limit < total]. *)
Theorem search_pagination (idx : Index) (query : string)
    (documents : list Document) (options : Options) :
  (0 <= limit options)%Z -> (0 <= offset options)%Z ->
  let r := search Date_parse Date_now localeCompare idx query documents
                  options in
  Z.of_nat (List.length (results r))
  = Z.min (limit options) (Z.max 0 (Z.of_nat (total r) - offset options))
  /\ ((offset options <= Z.of_nat (total r))%Z ->
      (Z.of_nat (List.length (results r))
       <= Z.min (limit options) (Z.of_nat (total r) - offset options))%Z)
  /\ total r
     = List.length
         (applyFilters Date_parse Date_now
                       (candidates idx query documents options)
                       (filters options))
  /\ hasMore (pagination r)
     = (offset options + limit options <? Z.of_nat (total r))%Z.
Proof.
  intros Hl Ho r.
  pose proof (search_results_length idx query documents options Hl Ho) as E.
  fold r in E; split; [exact E|].
  split; [intros Hle; lia|].
  split; [apply search_total | reflexivity].
Qed.

(** C10: whatever the strategy and the options, every result is a
    document of the [documents] argument together with the relevance score
    computed for it. *)
Theorem search_results_from_input (idx : Index) (query : string)
    (documents : list Document) (options : Options) (r : Result) :
  In r (results (search Date_parse Date_now localeCompare idx query
                        documents options)) ->
  In (res_doc r) documents
  /\ relevanceScore r = calculateRelevance query (res_doc r) documents.
Proof.
  intros H; apply search_results_In in H; destruct H as [H E].
  split; [|exact E].
  apply applyFilters_incl in H; apply candidates_incl in H; exact H.
Qed.

End HostProperties.

(** ** Numbers *)

Lemma Rsign_pos (x : R) : (0 < x)%R -> Rsign x = Gt.
Proof.
  intros H; unfold Rsign.
  destruct (Rlt_dec x 0); [lra|]; destruct (Rlt_dec 0 x); [reflexivity | lra].
Qed.

Lemma Rsign_zero : Rsign 0 = Eq.
Proof.
  unfold Rsign; destruct (Rlt_dec 0 0); [lra|reflexivity].
Qed.

Lemma jslog_pos (x : R) : (0 < x)%R -> jslog x = Num (ln x).
Proof. intros H; unfold jslog; rewrite (Rsign_pos x H); reflexivity. Qed.

Lemma ln_nonneg (x : R) : (1 <= x)%R -> (0 <= ln x)%R.
Proof.
  intros H; rewrite <- ln_1; destruct H as [H | <-].
  - left; apply ln_increasing; lra.
  - right; reflexivity.
Qed.

(** ** The frequency map of the scorer *)

Lemma counts_get0_set (m : Counts) (token t : string) (v : nat) :
  counts_get0 (counts_set m token v) t
  = if (token =? t)%string then v else counts_get0 m t.
Proof.
  unfold counts_get0; induction m as [|[k n] m IH]; simpl.
  - destruct (token =? t)%string; reflexivity.
  - destruct (String.eqb_spec k token) as [->|N]; simpl.
    + destruct (token =? t)%string; reflexivity.
    + destruct (String.eqb_spec k t) as [->|N'].
      * destruct (String.eqb_spec token t) as [->|_]; [congruence|reflexivity].
      * exact IH.
Qed.

Lemma count_tokens_fold (docTokens : list string) (m : Counts) (t : string) :
  counts_get0
    (fold_left (fun m token => counts_set m token (counts_get0 m token + 1))
               docTokens m) t
  = counts_get0 m t + count_occ string_dec docTokens t.
Proof.
  revert m; induction docTokens as [|tok toks IH]; intros m; simpl; [lia|].
  rewrite IH, counts_get0_set.
  destruct (string_dec tok t) as [->|N].
  - rewrite String.eqb_refl; lia.
  - apply String.eqb_neq in N; rewrite N; lia.
Qed.

(** [docTokenCount.get(t) || 0] is the number of occurrences of [t]. *)
Lemma count_tokens_get0 (docTokens : list string) (t : string) :
  counts_get0 (count_tokens docTokens) t = count_occ string_dec docTokens t.
Proof. unfold count_tokens; rewrite count_tokens_fold; reflexivity. Qed.

(** ** The relevance score *)

Lemma idf_ratio_pos (allDocuments : list Document) (df : nat) :
  allDocuments <> [] ->
  (0 < INR (List.length allDocuments) / INR (df + 1))%R.
Proof.
  intros H; apply Rdiv_lt_0_compat; apply lt_0_INR.
  - destruct allDocuments; [congruence | simpl; lia].
  - lia.
Qed.

Lemma tf_idf_value (docTokens : list string) (allDocuments : list Document)
    (queryToken : string) :
  allDocuments <> [] ->
  tf_idf (count_tokens docTokens) docTokens allDocuments queryToken
  = Num (term_value docTokens allDocuments queryToken).
Proof.
  intros H; unfold tf_idf, term_value.
  rewrite jslog_pos by (apply idf_ratio_pos; exact H).
  rewrite count_tokens_get0; reflexivity.
Qed.

Lemma tf_idf_sum_value (docTokens : list string)
    (allDocuments : list Document) (queryTokens : list string) (a : R) :
  allDocuments <> [] ->
  fold_left
    (fun score queryToken =>
       jsadd score
             (tf_idf (count_tokens docTokens) docTokens allDocuments queryToken))
    queryTokens (Num a)
  = Num (fold_left
           (fun s queryToken =>
              s + term_value docTokens allDocuments queryToken)%R
           queryTokens a).
Proof.
  intros H; revert a; induction queryTokens as [|t ts IH]; intros a; simpl.
  - reflexivity.
  - rewrite tf_idf_value by exact H; simpl; apply IH.
Qed.

Lemma calculateRelevance_empty (query : string) (document : Document)
    (allDocuments : list Document) :
  tokenize query = [] \/ tokenize (content document) = [] ->
  calculateRelevance query document allDocuments = Num 0.
Proof.
  intros [H | H]; unfold calculateRelevance; rewrite H; simpl;
    [|rewrite orb_true_r]; reflexivity.
Qed.

(** The score on a collection that is not empty, when the query and the
    document both have tokens: a real number. *)
Lemma calculateRelevance_value (query : string) (document : Document)
    (allDocuments : list Document) :
  tokenize query <> [] -> tokenize (content document) <> [] ->
  allDocuments <> [] ->
  calculateRelevance query document allDocuments
  = if includes (toLowerCase (content document)) (toLowerCase query)
    then Num (base_value query document allDocuments + 1)
    else Num (base_value query document allDocuments).
Proof.
  intros Hq Hd Ha; unfold calculateRelevance.
  destruct (tokenize query) as [|q qs] eqn:Eq; [congruence|].
  destruct (tokenize (content document)) as [|t ts] eqn:Ed; [congruence|].
  cbn [List.length Nat.eqb orb].
  rewrite tf_idf_sum_value by exact Ha.
  unfold base_value, filenameMatches; rewrite Eq, Ed.
  destruct (includes _ _); reflexivity.
Qed.

Lemma fold_sum_nonneg (f : string -> R) (l : list string) (a : R) :
  (0 <= a)%R -> (forall t, In t l -> (0 <= f t)%R) ->
  (0 <= fold_left (fun s t => s + f t) l a)%R.
Proof.
  revert a; induction l as [|x l IH]; intros a Ha Hf; simpl; [exact Ha|].
  apply IH.
  - pose proof (Hf x (or_introl eq_refl)); lra.
  - intros t Ht; apply Hf; right; exact Ht.
Qed.

(** A query token contributes a non-negative amount when it is absent from
    the document, or present in fewer documents than the collection has. *)
Lemma term_value_nonneg (docTokens : list string)
    (allDocuments : list Document) (t : string) :
  (In t docTokens ->
   getDocumentFrequency t allDocuments < List.length allDocuments) ->
  (0 <= term_value docTokens allDocuments t)%R.
Proof.
  intros H; unfold term_value.
  destruct (in_dec string_dec t docTokens) as [Hin | Hout].
  - specialize (H Hin).
    set (df := getDocumentFrequency t allDocuments) in *.
    apply Rmult_le_pos.
    + apply Rmult_le_pos; [apply pos_INR|].
      left; apply Rinv_0_lt_compat, lt_0_INR.
      destruct docTokens; [destruct Hin | simpl; lia].
    + apply ln_nonneg.
      assert (Hb : (0 < INR (df + 1))%R) by (apply lt_0_INR; lia).
      assert (Hab : (INR (df + 1) <= INR (List.length allDocuments))%R)
        by (apply le_INR; lia).
      pose proof (Rinv_0_lt_compat _ Hb) as Hi.
      assert (E : (INR (df + 1) * / INR (df + 1) = 1)%R)
        by (apply Rinv_r; lra).
      unfold Rdiv; nra.
  - apply (count_occ_not_In string_dec) in Hout; rewrite Hout.
    simpl INR; unfold Rdiv; rewrite !Rmult_0_l; lra.
Qed.

(** C1, as the code has it: the score is 0 when the query or the document
    has no token; on a collection that is not empty it is non-negative when
    every query token that occurs in the document occurs in fewer documents
    than the collection has (its [idf] is then not negative).  The code does
    not clamp a negative [idf]. *)
Theorem calculateRelevance_sign (query : string) (document : Document)
    (allDocuments : list Document) :
  (tokenize query = [] \/ tokenize (content document) = [] ->
   calculateRelevance query document allDocuments = Num 0)
  /\ (allDocuments <> [] ->
      (forall t, In t (tokenize query) ->
                 In t (tokenize (content document)) ->
                 getDocumentFrequency t allDocuments
                 < List.length allDocuments) ->
      js_nonneg (calculateRelevance query document allDocuments)).
Proof.
  split; [apply calculateRelevance_empty|].
  intros Ha Hdf.
  destruct (tokenize query) as [|q qs] eqn:Eq.
  { rewrite calculateRelevance_empty by (left; exact Eq); simpl; lra. }
  destruct (tokenize (content document)) as [|t ts] eqn:Ed.
  { rewrite calculateRelevance_empty by (right; exact Ed); simpl; lra. }
  assert (B : (0 <= base_value query document allDocuments)%R).
  { unfold base_value; rewrite Eq, Ed; apply Rplus_le_le_0_compat.
    - apply fold_sum_nonneg; [lra|].
      intros x Hx; apply term_value_nonneg; intros Hin; apply Hdf; assumption.
    - apply Rmult_le_pos; [apply pos_INR | lra]. }
  rewrite calculateRelevance_value; try (rewrite ?Eq, ?Ed; discriminate);
    [|exact Ha].
  destruct (includes _ _); simpl; lra.
Qed.

Lemma calculateRelevance_sign_witness :
  calculateRelevance "the of" Demo.d1 [Demo.d1; Demo.d2] = Num 0
  /\ js_nonneg
       (calculateRelevance "factory" Demo.d1 [Demo.d1; Demo.d2]).
Proof.
  pose proof (calculateRelevance_sign "the of" Demo.d1
                                      [Demo.d1; Demo.d2]) as [H0 _].
  pose proof (calculateRelevance_sign "factory" Demo.d1
                                      [Demo.d1; Demo.d2]) as [_ H1].
  split.
  - apply H0; left; reflexivity.
  - apply H1; [discriminate|].
    intros t [<- | []] _; vm_compute; lia.
Defined.

(** The two query tokens of "John Smith" in the first example document:
    each occurs once among its six tokens, and in both documents. *)
Lemma example_term_value (t : string) :
  t = "john" \/ t = "smith" ->
  term_value (tokenize (content Demo.d1)) [Demo.d1; Demo.d2] t
  = (1 / 6 * ln (2 / 3))%R.
Proof.
  intros [-> | ->]; unfold term_value.
  - replace (count_occ string_dec (tokenize (content Demo.d1)) "john")
      with 1 by (vm_compute; reflexivity).
    replace (List.length (tokenize (content Demo.d1)))
      with 6 by (vm_compute; reflexivity).
    replace (getDocumentFrequency "john" [Demo.d1; Demo.d2] + 1)
      with 3 by (vm_compute; reflexivity).
    rewrite !INR_IZR_INZ; reflexivity.
  - replace (count_occ string_dec (tokenize (content Demo.d1)) "smith")
      with 1 by (vm_compute; reflexivity).
    replace (List.length (tokenize (content Demo.d1)))
      with 6 by (vm_compute; reflexivity).
    replace (getDocumentFrequency "smith" [Demo.d1; Demo.d2] + 1)
      with 3 by (vm_compute; reflexivity).
    rewrite !INR_IZR_INZ; reflexivity.
Qed.

(** C1 as stated fails: for the query "John Smith" the first example
    document has the score [2 * (1/6) * ln (2/3)], which is negative: both
    terms occur in both documents, the file name has neither and the text has
    them in the other order. *)
Lemma calculateRelevance_negative :
  calculateRelevance "John Smith" Demo.d1 [Demo.d1; Demo.d2]
  = Num (0 + 1 / 6 * ln (2 / 3) + 1 / 6 * ln (2 / 3) + 0 * (1 / 2))
  /\ ~ js_nonneg
         (calculateRelevance "John Smith" Demo.d1 [Demo.d1; Demo.d2]).
Proof.
  assert (E : calculateRelevance "John Smith" Demo.d1
                                 [Demo.d1; Demo.d2]
              = Num (0 + 1 / 6 * ln (2 / 3) + 1 / 6 * ln (2 / 3)
                     + 0 * (1 / 2))).
  { rewrite calculateRelevance_value;
      try (vm_compute; discriminate).
    replace (includes (toLowerCase (content Demo.d1))
                      (toLowerCase "John Smith"))
      with false by (vm_compute; reflexivity).
    unfold base_value.
    replace (filenameMatches "John Smith" Demo.d1)
      with 0 by (vm_compute; reflexivity).
    replace (tokenize "John Smith") with ["john"; "smith"]
      by (vm_compute; reflexivity).
    cbn [fold_left].
    rewrite !example_term_value by auto.
    reflexivity. }
  split; [exact E|].
  rewrite E; simpl.
  assert (L : (ln (2 / 3) < 0)%R).
  { rewrite <- ln_1; apply ln_increasing; lra. }
  lra.
Qed.

(** The score before the phrase boost depends on the document through the
    multiset of its tokens and its file name only. *)
Lemma base_value_congr (query : string) (d1 d2 : Document)
    (allDocuments : list Document) :
  Permutation (tokenize (content d1)) (tokenize (content d2)) ->
  fileName d1 = fileName d2 ->
  base_value query d1 allDocuments = base_value query d2 allDocuments.
Proof.
  intros HP HF; unfold base_value, filenameMatches; rewrite HF; f_equal.
  assert (E : forall t,
             term_value (tokenize (content d1)) allDocuments t
             = term_value (tokenize (content d2)) allDocuments t).
  { intros t; unfold term_value.
    rewrite (Permutation_length HP).
    rewrite (proj1 (Permutation_count_occ string_dec _ _) HP t); reflexivity. }
  generalize 0%R; induction (tokenize query) as [|t ts IH]; intros a; simpl.
  - reflexivity.
  - rewrite E; apply IH.
Qed.

(** C7, as the code has it: two documents of one collection with the same
    multiset of tokens and the same file name, for a query that has a token
    and documents that have one: the document whose lower-cased content
    contains the lower-cased query scores exactly 1 above the one whose
    content does not.  (When the query or the documents have no token both
    scores are 0.) *)
Theorem exact_phrase_scores_higher (query : string) (d1 d2 : Document)
    (allDocuments : list Document) :
  In d1 allDocuments -> In d2 allDocuments ->
  tokenize query <> [] ->
  tokenize (content d1) <> [] ->
  Permutation (tokenize (content d1)) (tokenize (content d2)) ->
  fileName d1 = fileName d2 ->
  includes (toLowerCase (content d1)) (toLowerCase query) = true ->
  includes (toLowerCase (content d2)) (toLowerCase query) = false ->
  calculateRelevance query d1 allDocuments
  = jsadd (calculateRelevance query d2 allDocuments) (Num 1)
  /\ js_lt (calculateRelevance query d2 allDocuments)
           (calculateRelevance query d1 allDocuments).
Proof.
  intros H1 _ Hq Hd1 HP HF Hin Hout.
  assert (Ha : allDocuments <> []) by (destruct allDocuments; [destruct H1 | discriminate]).
  assert (Hd2 : tokenize (content d2) <> []).
  { intros E; rewrite E in HP; apply Permutation_sym, Permutation_nil in HP.
    congruence. }
  rewrite !calculateRelevance_value by assumption.
  rewrite Hin, Hout, (base_value_congr query d1 d2 allDocuments HP HF).
  split; [reflexivity | simpl; lra].
Qed.

Lemma exact_phrase_scores_higher_witness :
  js_lt (calculateRelevance "Smith John" Demo.d1_swapped
                            [Demo.d1; Demo.d1_swapped])
        (calculateRelevance "Smith John" Demo.d1
                            [Demo.d1; Demo.d1_swapped]).
Proof.
  refine (proj2 (exact_phrase_scores_higher
                   "Smith John" Demo.d1 Demo.d1_swapped
                   [Demo.d1; Demo.d1_swapped] _ _ _ _ _ _ _ _)).
  - left; reflexivity.
  - right; left; reflexivity.
  - vm_compute; discriminate.
  - vm_compute; discriminate.
  - replace (tokenize (content Demo.d1))
      with ["smith"; "john"; "factory"; "work"; "census_1920"; "pdf"]
      by (vm_compute; reflexivity).
    replace (tokenize (content Demo.d1_swapped))
      with ["john"; "smith"; "factory"; "work"; "census_1920"; "pdf"]
      by (vm_compute; reflexivity).
    apply perm_swap.
  - reflexivity.
  - vm_compute; reflexivity.
  - vm_compute; reflexivity.
Defined.

(** C7 as stated fails when the query has no token: the two documents have
    the same tokens and the same file name, only the first contains the
    query "of the", and both score 0. *)
Lemma exact_phrase_not_higher_without_tokens :
  In Demo.hill1 [Demo.hill1; Demo.hill2]
  /\ In Demo.hill2 [Demo.hill1; Demo.hill2]
  /\ Permutation (tokenize (content Demo.hill1))
                 (tokenize (content Demo.hill2))
  /\ fileName Demo.hill1 = fileName Demo.hill2
  /\ includes (toLowerCase (content Demo.hill1)) (toLowerCase "of the")
     = true
  /\ includes (toLowerCase (content Demo.hill2)) (toLowerCase "of the")
     = false
  /\ calculateRelevance "of the" Demo.hill1 [Demo.hill1; Demo.hill2]
     = Num 0
  /\ calculateRelevance "of the" Demo.hill2 [Demo.hill1; Demo.hill2]
     = Num 0
  /\ ~ js_lt (calculateRelevance "of the" Demo.hill2
                                 [Demo.hill1; Demo.hill2])
             (calculateRelevance "of the" Demo.hill1
                                 [Demo.hill1; Demo.hill2]).
Proof.
  assert (E1 : calculateRelevance "of the" Demo.hill1
                                  [Demo.hill1; Demo.hill2] = Num 0)
    by (apply calculateRelevance_empty; left; reflexivity).
  assert (E2 : calculateRelevance "of the" Demo.hill2
                                  [Demo.hill1; Demo.hill2] = Num 0)
    by (apply calculateRelevance_empty; left; reflexivity).
  split; [left; reflexivity|].
  split; [right; left; reflexivity|].
  split.
  { replace (tokenize (content Demo.hill2))
      with (tokenize (content Demo.hill1)) by (vm_compute; reflexivity).
    apply Permutation_refl. }
  split; [reflexivity|].
  split; [vm_compute; reflexivity|].
  split; [vm_compute; reflexivity|].
  split; [exact E1|].
  split; [exact E2|].
  rewrite E1, E2; simpl; lra.
Qed.

(** ** The end-to-end examples *)

Lemma slice_all {A : Type} (l : list A) (n : Z) :
  (Z.of_nat (List.length l) <= n)%Z -> slice l 0 n = l.
Proof.
  intros H; unfold slice.
  destruct (Z.ltb_spec n 0) as [?|_]; [lia|].
  change (0 <? 0)%Z with false; cbn iota.
  rewrite (Z.min_l 0) by lia; rewrite (Z.min_r n) by lia.
  rewrite Z.sub_0_r, Nat2Z.id; change (Z.to_nat 0) with 0.
  rewrite skipn_0; apply firstn_all.
Qed.

Lemma term_value_of_counts (docTokens : list string)
    (allDocuments : list Document) (t : string) (c n k : nat) :
  count_occ string_dec docTokens t = c ->
  List.length docTokens = n ->
  getDocumentFrequency t allDocuments + 1 = k ->
  term_value docTokens allDocuments t
  = (INR c / INR n * ln (INR (List.length allDocuments) / INR k))%R.
Proof. intros <- <- <-; reflexivity. Qed.

(** Under the default sort, two results with the same finite score compare
    equal. *)
Lemma comparator_same_score (Date_parse : string -> option Z)
    (localeCompare : string -> string -> Z) (a b : Result) (s : R) :
  relevanceScore a = Num s -> relevanceScore b = Num s ->
  jssign (comparator Date_parse localeCompare "relevance" "desc" a b) = Eq.
Proof.
  intros Ea Eb; unfold comparator; rewrite Ea, Eb; simpl.
  replace ((s + - s) * -1)%R with 0%R by lra; apply Rsign_zero.
Qed.

(** The score of either example document for the query "Smith John". *)
Lemma example_phrase_scores :
  calculateRelevance "Smith John" Demo.d1 [Demo.d1; Demo.d2]
  = Num (0 + 1 / 6 * ln (2 / 3) + 1 / 6 * ln (2 / 3) + 0 * (1 / 2) + 1)
  /\ calculateRelevance "Smith John" Demo.d2 [Demo.d1; Demo.d2]
     = Num (0 + 1 / 6 * ln (2 / 3) + 1 / 6 * ln (2 / 3) + 0 * (1 / 2) + 1).
Proof.
  split.
  - rewrite calculateRelevance_value; try (vm_compute; discriminate).
    replace (includes (toLowerCase (content Demo.d1))
                      (toLowerCase "Smith John"))
      with true by (vm_compute; reflexivity).
    unfold base_value.
    replace (filenameMatches "Smith John" Demo.d1)
      with 0 by (vm_compute; reflexivity).
    replace (tokenize "Smith John") with ["smith"; "john"]
      by (vm_compute; reflexivity).
    cbn [fold_left].
    rewrite (term_value_of_counts _ _ "smith" 1 6 3);
      try (vm_compute; reflexivity).
    rewrite (term_value_of_counts _ _ "john" 1 6 3);
      try (vm_compute; reflexivity).
    rewrite !INR_IZR_INZ; reflexivity.
  - rewrite calculateRelevance_value; try (vm_compute; discriminate).
    replace (includes (toLowerCase (content Demo.d2))
                      (toLowerCase "Smith John"))
      with true by (vm_compute; reflexivity).
    unfold base_value.
    replace (filenameMatches "Smith John" Demo.d2)
      with 0 by (vm_compute; reflexivity).
    replace (tokenize "Smith John") with ["smith"; "john"]
      by (vm_compute; reflexivity).
    cbn [fold_left].
    rewrite (term_value_of_counts _ _ "smith" 1 6 3);
      try (vm_compute; reflexivity).
    rewrite (term_value_of_counts _ _ "john" 1 6 3);
      try (vm_compute; reflexivity).
    rewrite !INR_IZR_INZ; reflexivity.
Qed.

(** C6: phrase search selects a document exactly when the lower-cased
    concatenation of its text, a space and its file name contains the
    lower-cased query; it is the strategy of every call with [exactPhrase];
    on the two example documents the query "Smith John"
    with [exactPhrase] returns both, in their order, and [total] is 2. *)
Theorem phraseSearch_substring :
  (forall (query : string) (documents : list Document) (doc : Document),
      In doc (phraseSearch query documents)
      <-> In doc documents
          /\ includes (toLowerCase (ocrText doc ++ " " ++ fileName doc)%string)
                      (toLowerCase query) = true)
  /\ (forall (idx : Index) (query : string) (documents : list Document)
             (f : Filters) (sb so : string) (l o : Z) (fz : bool),
         candidates idx query documents
                    {| filters := f; sortBy := sb; sortOrder := so;
                       limit := l; offset := o; fuzzy := fz;
                       exactPhrase := true |}
         = phraseSearch query documents)
  /\ (forall (Date_parse : string -> option Z) (Date_now : Z)
             (localeCompare : string -> string -> Z) (idx : Index),
         map res_doc
             (results (search Date_parse Date_now localeCompare idx
                              "Smith John" [Demo.d1; Demo.d2]
                              Demo.phraseOptions))
         = [Demo.d1; Demo.d2]
         /\ total (search Date_parse Date_now localeCompare idx
                          "Smith John" [Demo.d1; Demo.d2]
                          Demo.phraseOptions) = 2).
Proof.
  split; [exact phraseSearch_In|].
  split; [reflexivity|].
  intros Date_parse Date_now localeCompare idx.
  assert (C : applyFilters Date_parse Date_now
                (candidates idx "Smith John" [Demo.d1; Demo.d2]
                            Demo.phraseOptions)
                (filters Demo.phraseOptions)
              = [Demo.d1; Demo.d2]) by (vm_compute; reflexivity).
  split; [|rewrite search_total, C; reflexivity].
  unfold search; cbn [results]; rewrite C; cbn [map].
  destruct example_phrase_scores as [E1 E2].
  unfold sortResults; cbn [sort_by sort_insert].
  change (sortBy Demo.phraseOptions) with "relevance".
  change (sortOrder Demo.phraseOptions) with "desc".
  rewrite (comparator_same_score Date_parse localeCompare
             {| res_doc := Demo.d1;
                relevanceScore :=
                  calculateRelevance "Smith John" Demo.d1
                                     [Demo.d1; Demo.d2] |}
             {| res_doc := Demo.d2;
                relevanceScore :=
                  calculateRelevance "Smith John" Demo.d2
                                     [Demo.d1; Demo.d2] |}
             _ E1 E2).
  rewrite slice_all by (cbn [List.length Demo.phraseOptions limit offset]; lia).
  reflexivity.
Qed.

Lemma search_pagination_witness :
  (0 <= limit defaultOptions)%Z /\ (0 <= offset defaultOptions)%Z
  /\ Z.of_nat
       (List.length
          (results (search Demo.Date_parse Demo.Date_now
                           Demo.localeCompare
                           (buildIndex [] [Demo.d1; Demo.d2]) "Smith"
                           [Demo.d1; Demo.d2] defaultOptions)))
     = Z.min (limit defaultOptions)
             (Z.max 0
                (Z.of_nat
                   (total (search Demo.Date_parse Demo.Date_now
                                  Demo.localeCompare
                                  (buildIndex [] [Demo.d1; Demo.d2])
                                  "Smith" [Demo.d1; Demo.d2]
                                  defaultOptions))
                 - offset defaultOptions)).
Proof.
  assert (Hl : (0 <= limit defaultOptions)%Z) by (simpl; lia).
  assert (Ho : (0 <= offset defaultOptions)%Z) by (simpl; lia).
  split; [exact Hl | split; [exact Ho|]].
  exact (proj1 (search_pagination
                  Demo.Date_parse Demo.Date_now Demo.localeCompare
                  (buildIndex [] [Demo.d1; Demo.d2]) "Smith"
                  [Demo.d1; Demo.d2] defaultOptions Hl Ho)).
Defined.

(** C5 as stated fails when [offset] exceeds [total]: with limit 10 and
    offset 5 the query "Smith" on the two example documents has total 2 and
    an empty page, while [min(limit, total - offset)] is -3. *)
Lemma search_offset_beyond_total :
  total (search Demo.Date_parse Demo.Date_now Demo.localeCompare
                (buildIndex [] [Demo.d1; Demo.d2]) "Smith"
                [Demo.d1; Demo.d2] Demo.lateOptions) = 2
  /\ List.length
       (results (search Demo.Date_parse Demo.Date_now
                        Demo.localeCompare
                        (buildIndex [] [Demo.d1; Demo.d2]) "Smith"
                        [Demo.d1; Demo.d2] Demo.lateOptions)) = 0
  /\ ~ (Z.of_nat
          (List.length
             (results (search Demo.Date_parse Demo.Date_now
                              Demo.localeCompare
                              (buildIndex [] [Demo.d1; Demo.d2]) "Smith"
                              [Demo.d1; Demo.d2] Demo.lateOptions)))
        <= Z.min (limit Demo.lateOptions)
                 (Z.of_nat
                    (total (search Demo.Date_parse Demo.Date_now
                                   Demo.localeCompare
                                   (buildIndex [] [Demo.d1; Demo.d2])
                                   "Smith" [Demo.d1; Demo.d2]
                                   Demo.lateOptions))
                  - offset Demo.lateOptions))%Z.
Proof.
  assert (T : total (search Demo.Date_parse Demo.Date_now
                            Demo.localeCompare
                            (buildIndex [] [Demo.d1; Demo.d2]) "Smith"
                            [Demo.d1; Demo.d2] Demo.lateOptions) = 2)
    by (rewrite search_total; vm_compute; reflexivity).
  pose proof (search_results_length
                Demo.Date_parse Demo.Date_now Demo.localeCompare
                (buildIndex [] [Demo.d1; Demo.d2]) "Smith"
                [Demo.d1; Demo.d2] Demo.lateOptions) as L.
  rewrite T in *; cbn [limit offset Demo.lateOptions] in *.
  specialize (L ltac:(lia) ltac:(lia)).
  split; [reflexivity|]; split; lia.
Qed.

Lemma search_results_from_input_witness :
  In {| res_doc := Demo.d1;
        relevanceScore :=
          calculateRelevance "factory" Demo.d1 [Demo.d1; Demo.d2] |}
     (results (search Demo.Date_parse Demo.Date_now
                      Demo.localeCompare
                      (buildIndex [] [Demo.d1; Demo.d2]) "factory"
                      [Demo.d1; Demo.d2] defaultOptions))
  /\ In Demo.d1 [Demo.d1; Demo.d2].
Proof.
  assert (H : In {| res_doc := Demo.d1;
                    relevanceScore :=
                      calculateRelevance "factory" Demo.d1
                                         [Demo.d1; Demo.d2] |}
                 (results (search Demo.Date_parse Demo.Date_now
                                  Demo.localeCompare
                                  (buildIndex [] [Demo.d1; Demo.d2])
                                  "factory" [Demo.d1; Demo.d2]
                                  defaultOptions))).
  { assert (C : applyFilters Demo.Date_parse Demo.Date_now
                  (candidates (buildIndex [] [Demo.d1; Demo.d2])
                              "factory" [Demo.d1; Demo.d2]
                              defaultOptions)
                  (filters defaultOptions)
                = [Demo.d1]) by (vm_compute; reflexivity).
    unfold search; cbn [results]; rewrite C; cbn [map].
    unfold sortResults; cbn [sort_by sort_insert].
    rewrite slice_all by (cbn [List.length defaultOptions limit offset]; lia).
    left; reflexivity. }
  split; [exact H|].
  exact (proj1 (search_results_from_input
                  Demo.Date_parse Demo.Date_now Demo.localeCompare
                  (buildIndex [] [Demo.d1; Demo.d2]) "factory"
                  [Demo.d1; Demo.d2] defaultOptions _ H)).
Defined.

(** ** Sanity checks of the embedding *)

Lemma tokenize_sample :
  tokenize "The Worker, walking to  the FACTORY." = ["work"; "walk"; "factory"].
Proof. reflexivity. Qed.

Lemma split_ws_sample :
  split_ws " a  b " = [""; "a"; "b"; ""] /\ split_ws "" = [""].
Proof. split; reflexivity. Qed.

Lemma editDistance_kitten_sitting : editDistance "kitten" "sitting" = 3.
Proof. reflexivity. Qed.

Lemma buildIndex_sample :
  buildIndex [("stale", ["d9"])] [Demo.d1; Demo.d2]
  = [("smith", ["d1"; "d2"]); ("john", ["d1"; "d2"]); ("factory", ["d1"]);
     ("work", ["d1"]); ("census_1920", ["d1"]); ("pdf", ["d1"]);
     ("labor", ["d2"]); ("ireland", ["d2"]); ("immigra", ["d2"]);
     ("jpg", ["d2"])].
Proof. reflexivity. Qed.

Lemma getSuggestions_sample :
  getSuggestions (buildIndex [] [Demo.d1; Demo.d2]) "Im" [Demo.d1; Demo.d2] 5
  = ["immigra"; "immigration"].
Proof. reflexivity. Qed.

(** * Further properties *)

(** ** The stemmer *)

Lemma length_append (a b : string) :
  String.length (a ++ b)%string = String.length a + String.length b.
Proof. induction a as [|c a IH]; simpl; [reflexivity | rewrite IH; reflexivity]. Qed.

Lemma append_empty_r (s : string) : (s ++ EmptyString)%string = s.
Proof. induction s as [|c s IH]; simpl; [|rewrite IH]; reflexivity. Qed.

Lemma substring_0_length (s : string) : substring 0 (String.length s) s = s.
Proof. induction s as [|c s IH]; simpl; [|rewrite IH]; reflexivity. Qed.

Lemma substring_split (n : nat) (s : string) :
  n <= String.length s ->
  (substring 0 n s ++ substring n (String.length s - n) s)%string = s.
Proof.
  revert n; induction s as [|c s IH]; intros [|n] Hn.
  - reflexivity.
  - simpl in Hn; lia.
  - rewrite Nat.sub_0_r, substring_0_length; reflexivity.
  - simpl in *; f_equal; apply IH; lia.
Qed.

Lemma endsWith_split (word suffix : string) :
  endsWith word suffix = true ->
  word = (slice_drop_end word (String.length suffix) ++ suffix)%string.
Proof.
  unfold endsWith, slice_drop_end; intros H.
  apply andb_true_iff in H; destruct H as [Hl He].
  apply Nat.leb_le in Hl; apply String.eqb_eq in He.
  pose proof (substring_split (String.length word - String.length suffix) word
                              ltac:(lia)) as S.
  replace (String.length word
           - (String.length word - String.length suffix))
    with (String.length suffix) in S by lia.
  rewrite He in S; symmetry; exact S.
Qed.

Lemma stemWord_suffix_removed (word : string) :
  exists s,
    word = (stemWord word ++ s)%string
    /\ (s = EmptyString
        \/ (In s suffixes /\ 2 < String.length (stemWord word))).
Proof.
  unfold stemWord; induction suffixes as [|suffix rest IH]; simpl.
  - exists EmptyString; split; [|left; reflexivity].
    symmetry; apply append_empty_r.
  - destruct (endsWith word suffix) eqn:E; simpl.
    + destruct (String.length suffix + 2 <? String.length word) eqn:G.
      * apply Nat.ltb_lt in G; exists suffix; split.
        -- apply endsWith_split; exact E.
        -- right; split; [left; reflexivity|].
           rewrite length_slice_drop_end; lia.
      * destruct IH as [s [H1 [H2 | [H2 H3]]]]; exists s; auto.
    + destruct IH as [s [H1 [H2 | [H2 H3]]]]; exists s; auto.
Qed.

(** A word is its stem followed by nothing or by one suffix of the list,
    and a stem that lost a suffix keeps more than two characters. *)
Theorem stemWord_decompose (word : string) :
  exists s,
    word = (stemWord word ++ s)%string
    /\ (s = EmptyString
        \/ (In s suffixes /\ 2 < String.length (stemWord word))).
Proof. apply stemWord_suffix_removed. Qed.

(** A word of at most four characters is its own stem. *)
Theorem stemWord_short (word : string) :
  String.length word <= 4 -> stemWord word = word.
Proof.
  intros H; destruct (stemWord_suffix_removed word) as [s [E [-> | [Hs Hl]]]].
  - rewrite append_empty_r in E; symmetry; exact E.
  - exfalso.
    assert (L : String.length word
                = String.length (stemWord word) + String.length s)
      by (rewrite E at 1; apply length_append).
    assert (2 <= String.length s).
    { simpl in Hs; repeat (destruct Hs as [<- | Hs]; [simpl; lia|]).
      destruct Hs. }
    lia.
Qed.

Lemma stemWord_short_witness :
  String.length "used" <= 4 /\ stemWord "used" = "used".
Proof.
  assert (H : String.length "used" <= 4) by (simpl; lia).
  split; [exact H | exact (stemWord_short "used" H)].
Defined.

(** ** The characters of a token *)

Lemma all_chars_map (p : ascii -> bool) (f : ascii -> ascii) (s : string) :
  all_chars p (map_chars f s) = all_chars (fun c => p (f c)) s.
Proof. induction s as [|c s IH]; simpl; [|rewrite IH]; reflexivity. Qed.

Lemma all_chars_true (p : ascii -> bool) (s : string) :
  (forall c, p c = true) -> all_chars p s = true.
Proof.
  intros H; induction s as [|c s IH]; simpl; [|rewrite H, IH]; reflexivity.
Qed.

Lemma all_chars_substring_0 (p : ascii -> bool) (n : nat) (s : string) :
  all_chars p s = true -> all_chars p (substring 0 n s) = true.
Proof.
  revert n; induction s as [|c s IH]; intros [|n] H; simpl in *;
    try reflexivity.
  apply andb_true_iff in H; destruct H as [Hc Hs].
  rewrite Hc, (IH n Hs); reflexivity.
Qed.

(** After lower-casing and blanking, a character is white space or one of
    [a-z0-9_]. *)
Lemma normalized_char (c : ascii) :
  let c' := (if is_word (lower_char c) || is_space (lower_char c)
             then lower_char c else " "%char) in
  is_space c' || is_token_char c' = true.
Proof.
  destruct c as [[] [] [] [] [] [] [] []]; vm_compute; reflexivity.
Qed.

(** The pieces of a split hold the characters of the text that are not
    white space. *)
Lemma split_ws_chars (p : ascii -> bool) (s : string) :
  all_chars (fun c => is_space c || p c) s = true ->
  forall piece, In piece (split_ws s) -> all_chars p piece = true.
Proof.
  induction s as [|c s IH]; simpl.
  - intros _ piece [<- | []]; reflexivity.
  - intros H; apply andb_true_iff in H; destruct H as [Hc Hs].
    specialize (IH Hs); intros piece.
    destruct (is_space c) eqn:E.
    + destruct (starts_with_space s); [apply IH|].
      intros [<- | H]; [reflexivity | apply IH; exact H].
    + simpl in Hc.
      pose proof (split_ws_nonempty s) as N.
      destruct (split_ws s) as [|t ts]; [congruence|].
      intros [<- | H].
      * simpl; rewrite Hc; apply IH; left; reflexivity.
      * apply IH; right; exact H.
Qed.

Lemma stemWord_loop_chars (p : ascii -> bool) (sufs : list string)
    (word : string) :
  all_chars p word = true -> all_chars p (stemWord_loop sufs word) = true.
Proof.
  intros H; induction sufs as [|suffix rest IH]; simpl; [exact H|].
  destruct (endsWith word suffix && _); [|exact IH].
  apply all_chars_substring_0; exact H.
Qed.

(** Every token is made of lower-case letters, digits and underscores:
    no capital, no punctuation, no white space. *)
Theorem tokenize_token_chars (text token : string) :
  In token (tokenize text) -> all_chars is_token_char token = true.
Proof.
  intros H; apply tokenize_In in H; destruct H as [raw [Hin [_ ->]]].
  apply stemWord_loop_chars.
  revert raw Hin; unfold raw_tokens; apply split_ws_chars.
  unfold replace_punct, toLowerCase; rewrite !all_chars_map.
  apply all_chars_true; intros c; apply normalized_char.
Qed.

Lemma tokenize_token_chars_witness :
  In "census_1920" (tokenize "Census_1920.PDF")
  /\ all_chars is_token_char "census_1920" = true.
Proof.
  assert (H : In "census_1920" (tokenize "Census_1920.PDF"))
    by (vm_compute; auto).
  split; [exact H | exact (tokenize_token_chars _ _ H)].
Defined.

(** ** Case *)

Lemma lower_char_idempotent (c : ascii) :
  lower_char (lower_char c) = lower_char c.
Proof.
  destruct c as [[] [] [] [] [] [] [] []]; vm_compute; reflexivity.
Qed.

Lemma map_chars_map_chars (f g : ascii -> ascii) (s : string) :
  map_chars f (map_chars g s) = map_chars (fun c => f (g c)) s.
Proof. induction s as [|c s IH]; simpl; [|rewrite IH]; reflexivity. Qed.

Lemma map_chars_ext (f g : ascii -> ascii) (s : string) :
  (forall c, f c = g c) -> map_chars f s = map_chars g s.
Proof.
  intros H; induction s as [|c s IH]; simpl; [|rewrite H, IH]; reflexivity.
Qed.

Lemma toLowerCase_idempotent (s : string) :
  toLowerCase (toLowerCase s) = toLowerCase s.
Proof.
  unfold toLowerCase; rewrite map_chars_map_chars.
  apply map_chars_ext, lower_char_idempotent.
Qed.

Lemma tokenize_toLowerCase (s : string) :
  tokenize (toLowerCase s) = tokenize s.
Proof.
  rewrite !tokenize_unfold; unfold raw_tokens.
  rewrite toLowerCase_idempotent; reflexivity.
Qed.

(** Tokenization does not see case: two texts with the same lower-case form
    have the same tokens. *)
Theorem tokenize_case_insensitive (a b : string) :
  toLowerCase a = toLowerCase b -> tokenize a = tokenize b.
Proof.
  intros H; rewrite <- (tokenize_toLowerCase a), <- (tokenize_toLowerCase b).
  rewrite H; reflexivity.
Qed.

Lemma tokenize_case_insensitive_witness :
  toLowerCase "SMITH, John" = toLowerCase "smith, JOHN"
  /\ tokenize "SMITH, John" = tokenize "smith, JOHN".
Proof.
  assert (H : toLowerCase "SMITH, John" = toLowerCase "smith, JOHN")
    by reflexivity.
  split; [exact H | exact (tokenize_case_insensitive _ _ H)].
Defined.

(** The tokens of a document are the tokens of its text followed by the
    tokens of its file name; so every file-name token is a document token and
    is indexed. *)
Theorem content_tokens (doc : Document) :
  tokenize (content doc) = tokenize (ocrText doc) ++ tokenize (fileName doc).
Proof. unfold content; apply tokenize_app_space. Qed.

(** ** Invariants of the index *)

Lemma index_has_keys (idx : Index) (term : string) :
  index_has idx term = true <-> In term (map fst idx).
Proof.
  unfold index_has; rewrite existsb_exists, in_map_iff; split.
  - intros [e [He E]]; apply String.eqb_eq in E; eauto.
  - intros [e [E He]]; exists e; split; [exact He|].
    apply String.eqb_eq; exact E.
Qed.

Lemma index_get_Some_In (idx : Index) (term : string) (ids : list string) :
  index_get idx term = Some ids -> In (term, ids) idx.
Proof.
  induction idx as [|[t l] idx IH]; simpl; [discriminate|].
  destruct (String.eqb_spec t term) as [->|N].
  - intros [= ->]; left; reflexivity.
  - intros H; right; apply IH; exact H.
Qed.

Lemma keys_register (idx : Index) (token id term : string) :
  In term (map fst (index_register idx token id))
  <-> In term (map fst idx) \/ term = token.
Proof.
  induction idx as [|[t ids] idx IH]; simpl.
  - intuition.
  - destruct (String.eqb_spec t token) as [->|N]; simpl.
    + intuition.
    + rewrite IH; intuition.
Qed.

Lemma NoDup_set_add (s : list string) (x : string) :
  NoDup s -> NoDup (set_add s x).
Proof.
  intros H; unfold set_add; destruct (has s x) eqn:E; [exact H|].
  apply has_false in E.
  apply NoDup_app; [exact H | repeat constructor; intros [] | ].
  intros a Ha [<- | []]; exact (E Ha).
Qed.

Lemma set_add_nonempty (s : list string) (x : string) : set_add s x <> [].
Proof.
  unfold set_add; destruct (has s x) eqn:E.
  - apply has_In in E; destruct s; [destruct E | discriminate].
  - destruct s; discriminate.
Qed.

Lemma index_wf_register (idx : Index) (token id : string) :
  index_wf idx -> index_wf (index_register idx token id).
Proof.
  unfold index_wf; induction idx as [|[t ids] idx IH]; simpl.
  - intros _; split.
    + repeat constructor; intros [].
    + repeat constructor; [intros [] | discriminate].
  - intros [Hk Hp]; inversion Hk as [|? ? Hn Hk']; subst.
    inversion Hp as [|? ? [Hd He] Hp']; subst.
    destruct (String.eqb_spec t token) as [->|N]; simpl.
    + split; [exact Hk|].
      constructor; [|exact Hp'].
      split; [apply NoDup_set_add; exact Hd | apply set_add_nonempty].
    + destruct (IH (conj Hk' Hp')) as [IHk IHp]; split.
      * constructor; [|exact IHk].
        rewrite keys_register; intros [H | H]; [exact (Hn H) | exact (N H)].
      * constructor; [split; assumption | exact IHp].
Qed.

Lemma index_wf_document (doc : Document) (idx : Index) :
  index_wf idx -> index_wf (index_document idx doc).
Proof.
  unfold index_document; generalize (tokenize (content doc)); intros tokens.
  revert idx; induction tokens as [|t ts IH]; intros idx H; simpl.
  - exact H.
  - apply IH, index_wf_register, H.
Qed.

Lemma index_wf_buildIndex (searchIndex : Index) (documents : list Document) :
  index_wf (buildIndex searchIndex documents).
Proof.
  unfold buildIndex, index_clear.
  assert (H : index_wf []) by (split; constructor).
  revert H; generalize (@nil (string * list string)).
  induction documents as [|d ds IH]; intros idx H; simpl.
  - exact H.
  - apply IH, index_wf_document, H.
Qed.

(** The index [buildIndex] leaves has distinct terms, and each term has a
    posting set without repetition that is not empty. *)
Theorem buildIndex_well_formed (searchIndex : Index)
    (documents : list Document) :
  index_wf (buildIndex searchIndex documents).
Proof. apply index_wf_buildIndex. Qed.

(** The terms of the built index are exactly the tokens of the documents. *)
Theorem buildIndex_terms (searchIndex : Index) (documents : list Document)
    (term : string) :
  index_has (buildIndex searchIndex documents) term = true
  <-> exists doc, In doc documents /\ In term (tokenize (content doc)).
Proof.
  split.
  - intros H.
    destruct (index_get (buildIndex searchIndex documents) term) as [ids|] eqn:G.
    + pose proof (index_get_Some_In _ _ _ G) as Hin.
      destruct (index_wf_buildIndex searchIndex documents) as [_ Hp].
      rewrite Forall_forall in Hp; destruct (Hp _ Hin) as [_ Hne].
      simpl in Hne; destruct ids as [|i ids]; [congruence|].
      assert (Hi : In i (postings (buildIndex searchIndex documents) term))
        by (unfold postings; rewrite G; left; reflexivity).
      apply postings_buildIndex in Hi; destruct Hi as [doc [H1 [_ H3]]]; eauto.
    + exfalso; apply index_has_keys in H; apply in_map_iff in H.
      destruct H as [[t ids] [E Hin]]; simpl in E; subst t.
      clear -G Hin; induction (buildIndex searchIndex documents)
        as [|[t l] idx IH]; simpl in *; [destruct Hin|].
      destruct (String.eqb_spec t term) as [->|N]; [discriminate|].
      destruct Hin as [[= -> _] | Hin]; [congruence | auto].
  - intros [doc [H1 H2]].
    assert (Hi : In (documentId doc)
                    (postings (buildIndex searchIndex documents) term))
      by (apply postings_buildIndex; eauto).
    unfold postings in Hi.
    destruct (index_has (buildIndex searchIndex documents) term) eqn:E;
      [reflexivity|].
    rewrite (index_has_false_get _ _ E) in Hi; destruct Hi.
Qed.

(** ** The postings and the document frequency *)

Lemma postings_register_eq (idx : Index) (token id term : string) :
  postings (index_register idx token id) term
  = if (token =? term)%string then set_add (postings idx term) id
    else postings idx term.
Proof.
  unfold postings; induction idx as [|[t ids] idx IH]; simpl.
  - destruct (token =? term)%string; reflexivity.
  - destruct (String.eqb_spec t token) as [->|N]; simpl.
    + destruct (token =? term)%string; reflexivity.
    + destruct (String.eqb_spec t term) as [->|N'].
      * destruct (String.eqb_spec token term) as [->|_];
          [congruence | reflexivity].
      * exact IH.
Qed.

Lemma set_add_idempotent (s : list string) (x : string) :
  set_add (set_add s x) x = set_add s x.
Proof.
  unfold set_add at 1.
  assert (H : has (set_add s x) x = true)
    by (apply has_In, set_add_In; right; reflexivity).
  rewrite H; reflexivity.
Qed.

Lemma postings_register_all_eq (tokens : list string) (idx : Index)
    (id term : string) :
  postings (fold_left (fun acc token => index_register acc token id)
                      tokens idx) term
  = if has tokens term then set_add (postings idx term) id
    else postings idx term.
Proof.
  revert idx; induction tokens as [|tok tokens IH]; intros idx.
  - reflexivity.
  - cbn [fold_left]; rewrite IH, postings_register_eq.
    unfold has; cbn [existsb]; fold (has tokens term).
    rewrite (String.eqb_sym term tok).
    destruct (tok =? term)%string, (has tokens term); cbn [orb];
      try reflexivity.
    apply set_add_idempotent.
Qed.

Lemma postings_fold_documents_eq (documents : list Document) (idx : Index)
    (term : string) :
  postings (fold_left index_document documents idx) term
  = fold_left set_add
      (map documentId
           (filter (fun doc => has (tokenize (content doc)) term) documents))
      (postings idx term).
Proof.
  revert idx; induction documents as [|d ds IH]; intros idx.
  - reflexivity.
  - cbn [fold_left filter]; rewrite IH.
    unfold index_document at 1; rewrite postings_register_all_eq.
    destruct (has (tokenize (content d)) term); reflexivity.
Qed.

Lemma fold_set_add_fresh (l acc : list string) :
  NoDup (acc ++ l) -> fold_left set_add l acc = acc ++ l.
Proof.
  revert acc; induction l as [|x l IH]; intros acc H; simpl.
  - rewrite app_nil_r; reflexivity.
  - assert (N : ~ In x acc).
    { apply NoDup_remove_2 in H; intros Hx; apply H, in_or_app; left; exact Hx. }
    unfold set_add at 2; apply has_false in N; rewrite N.
    rewrite IH; rewrite <- app_assoc; [reflexivity | exact H].
Qed.

(** Selected documents of a collection with distinct ids have distinct
    ids. *)
Lemma distinct_ids_filter (keep : Document -> bool)
    (documents : list Document) :
  NoDup (map documentId documents) ->
  NoDup (map documentId (filter keep documents)).
Proof.
  induction documents as [|d ds IH]; simpl; intros H; [constructor|].
  inversion H as [|? ? Hn Hl]; subst.
  destruct (keep d); simpl; [|apply IH; exact Hl].
  constructor; [|apply IH; exact Hl].
  intros Hx; apply Hn; apply in_map_iff in Hx.
  destruct Hx as [y [E Hy]]; apply filter_In in Hy.
  apply in_map_iff; exists y; tauto.
Qed.

Lemma postings_buildIndex_eq (searchIndex : Index)
    (documents : list Document) (term : string) :
  NoDup (map documentId documents) ->
  postings (buildIndex searchIndex documents) term
  = map documentId
        (filter (fun doc => has (tokenize (content doc)) term) documents).
Proof.
  intros H; unfold buildIndex; rewrite postings_fold_documents_eq.
  unfold index_clear; change (postings [] term) with (@nil string).
  rewrite fold_set_add_fresh; [reflexivity|].
  apply distinct_ids_filter; exact H.
Qed.

(** When the documents have distinct ids, the posting set of a term in the
    built index lists the documents that contain the term, in their order,
    and its size is the document frequency the scorer computes. *)
Theorem postings_size_is_document_frequency (searchIndex : Index)
    (documents : list Document) (term : string) :
  NoDup (map documentId documents) ->
  postings (buildIndex searchIndex documents) term
  = map documentId
        (filter (fun doc => has (tokenize (content doc)) term) documents)
  /\ List.length (postings (buildIndex searchIndex documents) term)
     = getDocumentFrequency term documents.
Proof.
  intros H; rewrite (postings_buildIndex_eq _ _ _ H); split; [reflexivity|].
  unfold getDocumentFrequency; apply length_map.
Qed.

Lemma postings_size_is_document_frequency_witness :
  NoDup (map documentId [Demo.d1; Demo.d2])
  /\ List.length (postings (buildIndex [] [Demo.d1; Demo.d2]) "smith")
     = getDocumentFrequency "smith" [Demo.d1; Demo.d2].
Proof.
  assert (H : NoDup (map documentId [Demo.d1; Demo.d2])).
  { simpl; repeat constructor; simpl; [|tauto].
    intros [E | []]; discriminate E. }
  split; [exact H|].
  exact (proj2 (postings_size_is_document_frequency
                  [] [Demo.d1; Demo.d2] "smith" H)).
Defined.

Lemma NoDup_map_In_inj {A B : Type} (f : A -> B) (l : list A) (x y : A) :
  NoDup (map f l) -> In x l -> In y l -> f x = f y -> x = y.
Proof.
  induction l as [|z l IH]; simpl; intros H Hx Hy E; [destruct Hx|].
  inversion H as [|? ? Hn Hl]; subst.
  destruct Hx as [<- | Hx], Hy as [<- | Hy]; try reflexivity.
  - exfalso; apply Hn; rewrite E; apply in_map; exact Hy.
  - exfalso; apply Hn; rewrite <- E; apply in_map; exact Hx.
  - apply IH; assumption.
Qed.

Lemma standardSearch_fresh_In (searchIndex : Index)
    (documents : list Document) (query : string) (doc : Document) :
  NoDup (map documentId documents) ->
  tokenize query <> [] ->
  (In doc (standardSearch (buildIndex searchIndex documents) query documents)
   <-> In doc documents
       /\ exists token, In token (tokenize query)
                        /\ In token (tokenize (content doc))).
Proof.
  intros Hu Hq; rewrite (standardSearch_In _ _ _ _ Hq); split.
  - intros [Hd [token [Ht Hp]]]; split; [exact Hd|].
    exists token; split; [exact Ht|].
    apply postings_buildIndex in Hp; destruct Hp as [d' [H1 [H2 H3]]].
    rewrite <- (NoDup_map_In_inj documentId documents d' doc Hu H1 Hd H2).
    exact H3.
  - intros [Hd [token [Ht Hc]]]; split; [exact Hd|].
    exists token; split; [exact Ht|].
    apply postings_buildIndex; eauto.
Qed.

(** Standard search on a freshly built index, for documents with distinct
    ids and a query with at least one term: a document is a candidate exactly
    when it contains at least one term of the query. *)
Theorem standardSearch_selects_containing (searchIndex : Index)
    (documents : list Document) (query : string) (doc : Document) :
  NoDup (map documentId documents) ->
  tokenize query <> [] ->
  (In doc (standardSearch (buildIndex searchIndex documents) query documents)
   <-> In doc documents
       /\ exists token, In token (tokenize query)
                        /\ In token (tokenize (content doc))).
Proof. apply standardSearch_fresh_In. Qed.

Lemma standardSearch_selects_containing_witness :
  In Demo.d1
     (standardSearch (buildIndex [] [Demo.d1; Demo.d2]) "worker"
                     [Demo.d1; Demo.d2])
  <-> In Demo.d1 [Demo.d1; Demo.d2]
      /\ exists token, In token (tokenize "worker")
                       /\ In token (tokenize (content Demo.d1)).
Proof.
  apply (standardSearch_selects_containing [] [Demo.d1; Demo.d2] "worker").
  - simpl; repeat constructor; simpl; [|tauto].
    intros [E | []]; discriminate E.
  - vm_compute; discriminate.
Defined.

(** On the index of a service that never built one (the empty [Map] of the
    constructor) a query with a term has no candidate. *)
Theorem standardSearch_unbuilt_index (query : string)
    (documents : list Document) :
  tokenize query <> [] -> standardSearch [] query documents = [].
Proof.
  intros H; unfold standardSearch.
  destruct (tokenize query) as [|t ts]; [congruence|].
  cbn [List.length Nat.eqb].
  assert (E : fold_left
                (fun ids token =>
                   if index_has [] token then
                     match index_get [] token with
                     | Some posting => fold_left set_add posting ids
                     | None => ids
                     end
                   else ids) (t :: ts) [] = []).
  { generalize (t :: ts); intros l; induction l; simpl; auto. }
  rewrite E; induction documents as [|d ds IH]; simpl; auto.
Qed.

Lemma standardSearch_unbuilt_index_witness :
  tokenize "Smith" <> []
  /\ standardSearch [] "Smith" [Demo.d1; Demo.d2] = [].
Proof.
  assert (H : tokenize "Smith" <> []) by (vm_compute; discriminate).
  split; [exact H | exact (standardSearch_unbuilt_index _ _ H)].
Defined.

(** ** The edit distance *)

Lemma levenshtein_nil_r (a : list ascii) : levenshtein a [] = List.length a.
Proof. destruct a; reflexivity. Qed.

Lemma levenshtein_cons (x y : ascii) (a b : list ascii) :
  levenshtein (x :: a) (y :: b)
  = if Ascii.eqb x y then levenshtein a b
    else S (Nat.min (levenshtein a b)
                    (Nat.min (levenshtein (x :: a) b) (levenshtein a (y :: b)))).
Proof. reflexivity. Qed.

(** One pass of the inner loop turns the row of [a] into the row of
    [c2 :: a]. *)
Lemma editDistance_row_spec (c2 : ascii) (a : list ascii) (rest : string)
    (b : list ascii) :
  editDistance_row c2 rest (levenshtein_row a b rest)
                   (levenshtein a b) (levenshtein (c2 :: a) b)
  = levenshtein_row (c2 :: a) b rest.
Proof.
  revert b; induction rest as [|c1 rest IH]; intros b.
  - reflexivity.
  - cbn [levenshtein_row editDistance_row].
    assert (E : (if Ascii.eqb c2 c1 then levenshtein a b
                 else Nat.min (levenshtein a b + 1)
                              (Nat.min (levenshtein (c2 :: a) b + 1)
                                       (levenshtein a (c1 :: b) + 1)))
                = levenshtein (c2 :: a) (c1 :: b)).
    { rewrite levenshtein_cons; destruct (Ascii.eqb c2 c1); lia. }
    rewrite E, IH; reflexivity.
Qed.

Lemma editDistance_rows_spec (str2 str1 : string) (a : list ascii) :
  editDistance_rows str2 str1 (List.length a)
                    (levenshtein a [] :: levenshtein_row a [] str1)
  = levenshtein (rev_chars str2 ++ a) []
    :: levenshtein_row (rev_chars str2 ++ a) [] str1.
Proof.
  revert a; induction str2 as [|c2 str2 IH]; intros a.
  - reflexivity.
  - cbn [editDistance_rows hd tl].
    assert (R : editDistance_row c2 str1 (levenshtein_row a [] str1)
                                 (levenshtein a []) (S (List.length a))
                = levenshtein_row (c2 :: a) [] str1)
      by (apply (editDistance_row_spec c2 a str1 [])).
    rewrite R; etransitivity; [exact (IH (c2 :: a))|].
    unfold rev_chars; cbn [list_ascii_of_string rev].
    rewrite <- app_assoc; reflexivity.
Qed.

Lemma levenshtein_row_nil (b : list ascii) (rest : string) :
  levenshtein_row [] b rest = seq (S (List.length b)) (String.length rest).
Proof.
  revert b; induction rest as [|c rest IH]; intros b; simpl; [reflexivity|].
  rewrite IH; reflexivity.
Qed.

Lemma last_levenshtein_row (a b : list ascii) (rest : string) :
  last (levenshtein a b :: levenshtein_row a b rest) 0
  = levenshtein a (rev_chars rest ++ b).
Proof.
  revert b; induction rest as [|c rest IH]; intros b.
  - reflexivity.
  - cbn [levenshtein_row].
    change (last (levenshtein a b
                  :: levenshtein a (c :: b) :: levenshtein_row a (c :: b) rest) 0)
      with (last (levenshtein a (c :: b) :: levenshtein_row a (c :: b) rest) 0).
    rewrite IH; unfold rev_chars; cbn [list_ascii_of_string rev].
    rewrite <- app_assoc; reflexivity.
Qed.

Lemma editDistance_is_levenshtein (str1 str2 : string) :
  editDistance str1 str2 = levenshtein (rev_chars str2) (rev_chars str1).
Proof.
  unfold editDistance.
  assert (I : seq 0 (S (String.length str1))
              = levenshtein [] [] :: levenshtein_row [] [] str1)
    by (rewrite levenshtein_row_nil; reflexivity).
  pose proof (editDistance_rows_spec str2 str1 []) as E.
  cbn [List.length] in E; rewrite I, E, last_levenshtein_row, !app_nil_r.
  reflexivity.
Qed.

(** The matrix computation of [editDistance] returns the Levenshtein
    distance of the two strings (read from their last characters, as the
    matrix grows along prefixes). *)
Theorem editDistance_levenshtein (str1 str2 : string) :
  editDistance str1 str2 = levenshtein (rev_chars str2) (rev_chars str1).
Proof. apply editDistance_is_levenshtein. Qed.

Lemma levenshtein_refl (a : list ascii) : levenshtein a a = 0.
Proof.
  induction a as [|x a IH]; [reflexivity|].
  rewrite levenshtein_cons, Ascii.eqb_refl; exact IH.
Qed.

Lemma levenshtein_zero (a b : list ascii) : levenshtein a b = 0 -> a = b.
Proof.
  revert b; induction a as [|x a IH]; intros [|y b] H.
  - reflexivity.
  - discriminate H.
  - discriminate H.
  - rewrite levenshtein_cons in H.
    destruct (Ascii.eqb_spec x y) as [->|N]; [|discriminate H].
    f_equal; apply IH; exact H.
Qed.

Lemma levenshtein_bounds (a b : list ascii) :
  List.length a - List.length b <= levenshtein a b
  /\ List.length b - List.length a <= levenshtein a b
  /\ levenshtein a b <= Nat.max (List.length a) (List.length b).
Proof.
  revert b; induction a as [|x a IHa]; intros b.
  - simpl; lia.
  - induction b as [|y b IHb].
    + rewrite levenshtein_nil_r; simpl; lia.
    + rewrite levenshtein_cons.
      pose proof (IHa b) as H1; pose proof (IHa (y :: b)) as H2.
      cbn [List.length] in *.
      destruct (Ascii.eqb x y); lia.
Qed.

Lemma levenshtein_sym (a b : list ascii) : levenshtein a b = levenshtein b a.
Proof.
  revert b; induction a as [|x a IHa]; intros b.
  - rewrite levenshtein_nil_r; reflexivity.
  - induction b as [|y b IHb].
    + rewrite levenshtein_nil_r; reflexivity.
    + rewrite !levenshtein_cons, (IHa b), (IHa (y :: b)), IHb.
      rewrite (Ascii.eqb_sym x y).
      destruct (Ascii.eqb y x); [reflexivity|].
      f_equal; lia.
Qed.

Lemma length_rev_chars (s : string) :
  List.length (rev_chars s) = String.length s.
Proof.
  unfold rev_chars; rewrite length_rev.
  induction s as [|c s IH]; simpl; [|rewrite IH]; reflexivity.
Qed.

Lemma rev_chars_inj (s t : string) : rev_chars s = rev_chars t -> s = t.
Proof.
  unfold rev_chars; intros H.
  apply (f_equal (@rev ascii)) in H; rewrite !rev_involutive in H.
  rewrite <- (string_of_list_ascii_of_string s),
          <- (string_of_list_ascii_of_string t), H.
  reflexivity.
Qed.

Lemma editDistance_zero_facts (str : string) :
  (forall other, editDistance str other = 0 -> str = other)
  /\ editDistance str str = 0.
Proof.
  split.
  - intros other H; rewrite editDistance_is_levenshtein in H.
    apply levenshtein_zero, rev_chars_inj in H; symmetry; exact H.
  - rewrite editDistance_is_levenshtein; apply levenshtein_refl.
Qed.

(** The edit distance of two strings is 0 exactly when they are equal. *)
Theorem editDistance_zero_iff (str1 str2 : string) :
  editDistance str1 str2 = 0 <-> str1 = str2.
Proof.
  rewrite editDistance_is_levenshtein; split.
  - intros H; apply levenshtein_zero in H; apply rev_chars_inj in H.
    symmetry; exact H.
  - intros ->; apply levenshtein_refl.
Qed.

(** The edit distance is at least the difference of the lengths and at
    most the greater length. *)
Theorem editDistance_bounds (str1 str2 : string) :
  String.length str1 - String.length str2 <= editDistance str1 str2
  /\ String.length str2 - String.length str1 <= editDistance str1 str2
  /\ editDistance str1 str2
     <= Nat.max (String.length str1) (String.length str2).
Proof.
  rewrite editDistance_is_levenshtein.
  pose proof (levenshtein_bounds (rev_chars str2) (rev_chars str1)) as H.
  rewrite !length_rev_chars in H; lia.
Qed.

(** The edit distance does not depend on the order of its arguments. *)
Theorem editDistance_symmetric (str1 str2 : string) :
  editDistance str1 str2 = editDistance str2 str1.
Proof. rewrite !editDistance_is_levenshtein; apply levenshtein_sym. Qed.

(** ** Fuzzy search *)

Lemma fuzzySearch_In (query : string) (documents : list Document)
    (doc : Document) :
  In doc (fuzzySearch query documents)
  <-> In doc documents
      /\ exists queryToken docToken,
           In queryToken (tokenize query)
           /\ In docToken (tokenize (content doc))
           /\ editDistance queryToken docToken <= threshold.
Proof.
  unfold fuzzySearch; rewrite filter_In, existsb_exists; split.
  - intros [Hd [qt [Hq H]]]; apply existsb_exists in H.
    destruct H as [dt [Ht H]]; apply Nat.leb_le in H; eauto 7.
  - intros [Hd [qt [dt [Hq [Ht H]]]]]; split; [exact Hd|].
    exists qt; split; [exact Hq|].
    apply existsb_exists; exists dt; split; [exact Ht|].
    apply Nat.leb_le; exact H.
Qed.

(** A query without a term has no fuzzy candidate (standard search selects
    every document for it). *)
Theorem fuzzySearch_no_terms (query : string) (documents : list Document) :
  tokenize query = [] -> fuzzySearch query documents = [].
Proof.
  intros H; unfold fuzzySearch; rewrite H.
  induction documents as [|d ds IH]; simpl; auto.
Qed.

Lemma fuzzySearch_no_terms_witness :
  tokenize "the of" = []
  /\ fuzzySearch "the of" [Demo.d1; Demo.d2] = [].
Proof.
  assert (H : tokenize "the of" = []) by reflexivity.
  split; [exact H | exact (fuzzySearch_no_terms _ _ H)].
Defined.

(** On a freshly built index and documents with distinct ids, every
    candidate of standard search for a query with a term is a candidate of
    fuzzy search. *)
Theorem standardSearch_within_fuzzySearch (searchIndex : Index)
    (documents : list Document) (query : string) :
  NoDup (map documentId documents) ->
  tokenize query <> [] ->
  incl (standardSearch (buildIndex searchIndex documents) query documents)
       (fuzzySearch query documents).
Proof.
  intros Hu Hq doc H.
  apply (standardSearch_fresh_In _ _ _ _ Hu Hq) in H.
  destruct H as [Hd [token [H1 H2]]].
  apply fuzzySearch_In; split; [exact Hd|].
  exists token, token; repeat split; try assumption.
  rewrite (proj2 (editDistance_zero_facts token)); unfold threshold; lia.
Qed.

Lemma standardSearch_within_fuzzySearch_witness :
  incl (standardSearch (buildIndex [] [Demo.d1; Demo.d2]) "worker"
                       [Demo.d1; Demo.d2])
       (fuzzySearch "worker" [Demo.d1; Demo.d2]).
Proof.
  apply (standardSearch_within_fuzzySearch [] [Demo.d1; Demo.d2] "worker").
  - simpl; repeat constructor; simpl; [|tauto].
    intros [E | []]; discriminate E.
  - vm_compute; discriminate.
Defined.

(** ** Filters *)

Lemma filter_filter {A : Type} (p q : A -> bool) (l : list A) :
  filter p (filter q l) = filter (fun x => q x && p x) l.
Proof.
  induction l as [|x l IH]; simpl; [reflexivity|].
  destruct (q x); simpl; [destruct (p x)|]; rewrite IH; reflexivity.
Qed.

Lemma filter_if {A : Type} (b : bool) (p : A -> bool) (l : list A) :
  (if b then filter p l else l) = filter (fun x => if b then p x else true) l.
Proof.
  destruct b; [reflexivity|].
  induction l as [|x l IH]; simpl; [|rewrite <- IH]; reflexivity.
Qed.

Section FilterProperties.

Variable Date_parse : string -> option Z.
Variable Date_now : Z.

Lemma applyFilters_filter (results : list Document) (filters : Filters) :
  applyFilters Date_parse Date_now results filters
  = filter (passes_filters Date_parse Date_now filters) results.
Proof.
  unfold applyFilters; cbv zeta.
  rewrite !filter_if, !filter_filter; apply filter_ext.
  intros doc; unfold passes_filters.
  rewrite <- ?andb_assoc; reflexivity.
Qed.

(** The filters act as one test, the conjunction of the active ones:
    [applyFilters] keeps, in their order, the documents that pass all of
    them. *)
Theorem applyFilters_conjunction (results : list Document)
    (filters : Filters) :
  applyFilters Date_parse Date_now results filters
  = filter (passes_filters Date_parse Date_now filters) results.
Proof. apply applyFilters_filter. Qed.

(** Filters of which no option is truthy (absent, an empty string, an empty
    array, or the number 0, so also [maxSize: 0]) leave the results as they
    are. *)
Theorem applyFilters_inactive (results : list Document) (filters : Filters) :
  no_active_filter filters = true ->
  applyFilters Date_parse Date_now results filters = results.
Proof.
  unfold no_active_filter; intros H.
  repeat (apply andb_true_iff in H; destruct H as [H ?]).
  repeat match goal with
         | E : negb _ = true |- _ => apply negb_true_iff in E
         end.
  unfold applyFilters; cbv zeta.
  repeat match goal with
         | E : _ = false |- _ => rewrite E; clear E
         end.
  reflexivity.
Qed.

(** Two sets of filters can be applied in either order, and applying one
    twice changes nothing more. *)
Theorem applyFilters_commute (results : list Document) (f g : Filters) :
  applyFilters Date_parse Date_now
               (applyFilters Date_parse Date_now results f) g
  = applyFilters Date_parse Date_now
                 (applyFilters Date_parse Date_now results g) f
  /\ applyFilters Date_parse Date_now
                  (applyFilters Date_parse Date_now results f) f
     = applyFilters Date_parse Date_now results f.
Proof.
  rewrite !applyFilters_filter, !filter_filter; split; apply filter_ext.
  - intros doc; apply andb_comm.
  - intros doc; destruct (passes_filters _ _ f doc); reflexivity.
Qed.

(** A document whose upload date does not parse is dropped by every date
    filter. *)
Theorem applyFilters_invalid_date (results : list Document)
    (filters : Filters) (doc : Document) :
  truthy_string (dateFrom filters) || truthy_string (dateTo filters) = true ->
  Date_parse (uploadDate doc) = None ->
  ~ In doc (applyFilters Date_parse Date_now results filters).
Proof.
  intros Ha Hd H; rewrite applyFilters_filter in H.
  apply filter_In in H; destruct H as [_ H].
  unfold passes_filters in H; rewrite Ha in H.
  unfold date_filter in H; rewrite Hd in H; discriminate H.
Qed.

End FilterProperties.

Lemma applyFilters_inactive_witness :
  no_active_filter Sample.falsyFilters = true
  /\ applyFilters Demo.Date_parse Demo.Date_now [Demo.d1; Demo.d2]
                  Sample.falsyFilters
     = [Demo.d1; Demo.d2].
Proof.
  assert (H : no_active_filter Sample.falsyFilters = true) by reflexivity.
  split; [exact H|].
  exact (applyFilters_inactive Demo.Date_parse Demo.Date_now
                               [Demo.d1; Demo.d2] Sample.falsyFilters H).
Defined.

Lemma applyFilters_invalid_date_witness :
  ~ In Demo.d1
       (applyFilters Demo.Date_parse Demo.Date_now [Demo.d1; Demo.d2]
                     Sample.sinceFilters).
Proof.
  apply (applyFilters_invalid_date Demo.Date_parse Demo.Date_now
                                   [Demo.d1; Demo.d2] Sample.sinceFilters
                                   Demo.d1); reflexivity.
Defined.

(** ** Sorting *)

Lemma sort_insert_In {A : Type} (cmp : A -> A -> comparison) (x y : A)
    (l : list A) :
  In y (sort_insert cmp x l) <-> y = x \/ In y l.
Proof.
  split; intros H.
  - apply (Permutation_in _ (sort_insert_perm cmp x l)) in H.
    destruct H as [<- | H]; auto.
  - apply (Permutation_in _ (Permutation_sym (sort_insert_perm cmp x l))).
    destruct H as [-> | H]; [left; reflexivity | right; exact H].
Qed.

(** Insertion sort orders a list by a relation [le] when the comparison
    function decides [le] on the elements of the list. *)
Lemma sort_by_sorted {A : Type} (cmp : A -> A -> comparison)
    (le : A -> A -> Prop) (l : list A) :
  (forall x y, In x l -> In y l -> cmp x y <> Gt -> le x y) ->
  (forall x y, In x l -> In y l -> cmp x y = Gt -> le y x) ->
  (forall x y z, le x y -> le y z -> le x z) ->
  StronglySorted le (sort_by cmp l).
Proof.
  intros Hle Hgt Htr; induction l as [|x l IH]; simpl; [constructor|].
  assert (IH' : StronglySorted le (sort_by cmp l)).
  { apply IH; intros; [apply Hle | apply Hgt]; simpl; auto. }
  clear IH.
  assert (Hin : forall y, In y (sort_by cmp l) -> In y l)
    by (intros y; apply sort_by_In).
  revert IH' Hin; generalize (sort_by cmp l); intros s Hs Hin.
  induction s as [|y s IHs]; simpl.
  - repeat constructor.
  - inversion Hs as [|? ? Hs' Hy]; subst.
    assert (Hyl : In y l) by (apply Hin; left; reflexivity).
    destruct (cmp x y) eqn:E.
    + constructor; [exact Hs|].
      assert (Hxy : le x y)
        by (apply Hle; simpl; auto; rewrite E; discriminate).
      constructor; [exact Hxy|].
      rewrite Forall_forall in *; intros z Hz; eapply Htr; eauto.
    + constructor; [exact Hs|].
      assert (Hxy : le x y)
        by (apply Hle; simpl; auto; rewrite E; discriminate).
      constructor; [exact Hxy|].
      rewrite Forall_forall in *; intros z Hz; eapply Htr; eauto.
    + constructor.
      * apply IHs; [exact Hs' | intros z Hz; apply Hin; right; exact Hz].
      * rewrite Forall_forall in *; intros z Hz.
        apply sort_insert_In in Hz; destruct Hz as [-> | Hz].
        -- apply Hgt; simpl; auto.
        -- apply Hy; exact Hz.
Qed.

Lemma Rsign_Gt_iff (x : R) : Rsign x = Gt <-> (0 < x)%R.
Proof.
  unfold Rsign; destruct (Rlt_dec x 0); [split; [discriminate | lra]|].
  destruct (Rlt_dec 0 x); [tauto | split; [discriminate | lra]].
Qed.

Section SortProperties.

Variable Date_parse : string -> option Z.
Variable localeCompare : string -> string -> Z.

(** Sorting neither drops, adds nor repeats a result. *)
Theorem sortResults_permutation (results : list Result)
    (sortBy sortOrder : string) :
  Permutation (sortResults Date_parse localeCompare results sortBy sortOrder)
              results.
Proof. unfold sortResults; apply sort_by_perm. Qed.

Lemma sort_by_all_equal {A : Type} (cmp : A -> A -> comparison)
    (l : list A) :
  (forall x y, cmp x y = Eq) -> sort_by cmp l = l.
Proof.
  intros H; induction l as [|x l IH]; simpl; [reflexivity|].
  rewrite IH; destruct l as [|y l]; simpl; [reflexivity|].
  rewrite H; reflexivity.
Qed.

(** With a sort key that is none of relevance, date, name and size, the
    results keep their order, in either direction. *)
Theorem sortResults_unknown_key (results : list Result)
    (sortBy sortOrder : string) :
  sortBy <> "relevance" -> sortBy <> "date" -> sortBy <> "name" ->
  sortBy <> "size" ->
  sortResults Date_parse localeCompare results sortBy sortOrder = results.
Proof.
  intros H1 H2 H3 H4; unfold sortResults; apply sort_by_all_equal.
  intros a b; unfold comparator.
  apply String.eqb_neq in H1, H2, H3, H4; rewrite H1, H2, H3, H4.
  destruct (sortOrder =? "desc")%string; simpl.
  - replace (0 * -1)%R with 0%R by lra; apply Rsign_zero.
  - replace (0 * 1)%R with 0%R by lra; apply Rsign_zero.
Qed.

Lemma size_comparator_Gt (sortOrder : string) (a b : Result) :
  jssign (comparator Date_parse localeCompare "size" sortOrder a b) = Gt
  <-> if (sortOrder =? "desc")%string
      then (fileSize0 (res_doc a) < fileSize0 (res_doc b))%Z
      else (fileSize0 (res_doc b) < fileSize0 (res_doc a))%Z.
Proof.
  unfold comparator; cbn [String.eqb Ascii.eqb Bool.eqb andb].
  set (z := (fileSize0 (res_doc a) - fileSize0 (res_doc b))%Z).
  destruct (sortOrder =? "desc")%string; simpl; rewrite Rsign_Gt_iff.
  - split; intros H.
    + assert (IZR z < 0)%R by lra; apply lt_IZR in H0; lia.
    + assert (IZR z < 0)%R by (apply IZR_lt; lia); lra.
  - split; intros H.
    + assert (0 < IZR z)%R by lra; apply lt_IZR in H0; lia.
    + assert (0 < IZR z)%R by (apply IZR_lt; lia); lra.
Qed.

(** Sorted by size the results are in non-decreasing order of file size
    (a missing size counting as 0), and in non-increasing order when the
    direction is "desc". *)
Theorem sortResults_by_size (results : list Result) (sortOrder : string) :
  StronglySorted
    (fun a b =>
       if (sortOrder =? "desc")%string
       then (fileSize0 (res_doc b) <= fileSize0 (res_doc a))%Z
       else (fileSize0 (res_doc a) <= fileSize0 (res_doc b))%Z)
    (sortResults Date_parse localeCompare results "size" sortOrder).
Proof.
  unfold sortResults; apply sort_by_sorted.
  - intros x y _ _ H.
    pose proof (size_comparator_Gt sortOrder x y) as G.
    destruct (sortOrder =? "desc")%string.
    + destruct (Z.le_gt_cases (fileSize0 (res_doc y)) (fileSize0 (res_doc x)));
        [assumption | tauto].
    + destruct (Z.le_gt_cases (fileSize0 (res_doc x)) (fileSize0 (res_doc y)));
        [assumption | tauto].
  - intros x y _ _ H.
    apply (size_comparator_Gt sortOrder x y) in H.
    destruct (sortOrder =? "desc")%string; lia.
  - intros x y z; destruct (sortOrder =? "desc")%string; lia.
Qed.

End SortProperties.

Lemma sortResults_unknown_key_witness :
  sortResults Demo.Date_parse Demo.localeCompare
              [ {| res_doc := Demo.d2; relevanceScore := Num 0 |};
                {| res_doc := Demo.d1; relevanceScore := Num 1 |} ]
              "title" "desc"
  = [ {| res_doc := Demo.d2; relevanceScore := Num 0 |};
      {| res_doc := Demo.d1; relevanceScore := Num 1 |} ].
Proof.
  apply (sortResults_unknown_key Demo.Date_parse Demo.localeCompare);
    discriminate.
Defined.

(** ** The score at the edges *)

Lemma calculateRelevance_finite (query : string) (document : Document)
    (allDocuments : list Document) :
  allDocuments <> [] ->
  exists s, calculateRelevance query document allDocuments = Num s.
Proof.
  intros Ha.
  destruct (tokenize query) as [|q qs] eqn:Eq.
  { exists 0%R; apply calculateRelevance_empty; left; exact Eq. }
  destruct (tokenize (content document)) as [|t ts] eqn:Ed.
  { exists 0%R; apply calculateRelevance_empty; right; exact Ed. }
  rewrite calculateRelevance_value; try (rewrite ?Eq, ?Ed; discriminate);
    [|exact Ha].
  destruct (includes _ _); eauto.
Qed.

(** On a collection that is not empty the score is a finite number. *)
Theorem calculateRelevance_is_finite (query : string) (document : Document)
    (allDocuments : list Document) :
  allDocuments <> [] ->
  exists s, calculateRelevance query document allDocuments = Num s.
Proof. apply calculateRelevance_finite. Qed.

Lemma calculateRelevance_is_finite_witness :
  exists s, calculateRelevance "John Smith" Demo.d1 [Demo.d1; Demo.d2] = Num s.
Proof.
  apply (calculateRelevance_is_finite "John Smith" Demo.d1 [Demo.d1; Demo.d2]).
  discriminate.
Defined.

Lemma has_count_occ (l : list string) (t : string) :
  has l t = true <-> 0 < count_occ string_dec l t.
Proof. rewrite has_In; apply (count_occ_In string_dec). Qed.

(** On the empty collection [idf] is [Math.log(0)]: a token of the document
    contributes -Infinity, any other [0 * -Infinity]. *)
Lemma tf_idf_empty_collection (docTokens : list string) (t : string) :
  docTokens <> [] ->
  tf_idf (count_tokens docTokens) docTokens [] t
  = if has docTokens t then NegInfinity else NaN.
Proof.
  intros Hd; unfold tf_idf; rewrite count_tokens_get0.
  cbn [getDocumentFrequency filter List.length Nat.add].
  replace (INR 0 / INR 1)%R with 0%R by (simpl; lra).
  unfold jslog; rewrite Rsign_zero; cbn [jsmul].
  destruct (has docTokens t) eqn:E.
  - apply has_count_occ in E.
    rewrite Rsign_pos; [reflexivity|].
    apply Rdiv_lt_0_compat; apply lt_0_INR; [exact E|].
    destruct docTokens; [congruence | simpl; lia].
  - assert (Z0 : count_occ string_dec docTokens t = 0).
    { destruct (count_occ string_dec docTokens t) eqn:C; [reflexivity|].
      assert (H : has docTokens t = true) by (apply has_count_occ; lia).
      congruence. }
    rewrite Z0; replace (INR 0 / INR (List.length docTokens))%R with 0%R
      by (simpl; unfold Rdiv; rewrite Rmult_0_l; reflexivity).
    rewrite Rsign_zero; reflexivity.
Qed.

Lemma tf_idf_sum_empty_collection (docTokens queryTokens : list string)
    (acc : jsnum) :
  docTokens <> [] ->
  fold_left
    (fun score queryToken =>
       jsadd score (tf_idf (count_tokens docTokens) docTokens [] queryToken))
    queryTokens acc
  = match queryTokens, acc with
    | [], _ => acc
    | _, NaN => NaN
    | _, PosInfinity => NaN
    | _, _ => if forallb (has docTokens) queryTokens then NegInfinity else NaN
    end.
Proof.
  intros Hd; revert acc; induction queryTokens as [|t ts IH]; intros acc.
  - reflexivity.
  - cbn [fold_left forallb]; rewrite IH, tf_idf_empty_collection by exact Hd.
    destruct ts as [|t' ts'].
    + cbn [forallb]; rewrite andb_true_r.
      destruct (has docTokens t), acc; reflexivity.
    + destruct (has docTokens t), acc; cbn [jsadd andb]; reflexivity.
Qed.

(** With an empty collection the score of a query with a term for a
    document with a token is no number: -Infinity when every term of the
    query occurs in the document, NaN otherwise. *)
Theorem calculateRelevance_empty_collection (query : string)
    (document : Document) :
  tokenize query <> [] -> tokenize (content document) <> [] ->
  calculateRelevance query document []
  = if forallb (has (tokenize (content document))) (tokenize query)
    then NegInfinity else NaN.
Proof.
  intros Hq Hd; unfold calculateRelevance.
  destruct (tokenize query) as [|q qs] eqn:Eq; [congruence|].
  destruct (tokenize (content document)) as [|t ts] eqn:Ed; [congruence|].
  cbn [List.length Nat.eqb orb].
  rewrite tf_idf_sum_empty_collection by discriminate.
  destruct (forallb (has (t :: ts)) (q :: qs));
    destruct (includes _ _); reflexivity.
Qed.

Lemma calculateRelevance_empty_collection_witness :
  calculateRelevance "John Smith" Demo.d1 [] = NegInfinity
  /\ calculateRelevance "John Murphy" Demo.d1 [] = NaN.
Proof.
  split.
  - rewrite (calculateRelevance_empty_collection "John Smith" Demo.d1);
      try (vm_compute; discriminate).
    replace (forallb (has (tokenize (content Demo.d1))) (tokenize "John Smith"))
      with true by (vm_compute; reflexivity).
    reflexivity.
  - rewrite (calculateRelevance_empty_collection "John Murphy" Demo.d1);
      try (vm_compute; discriminate).
    replace (forallb (has (tokenize (content Demo.d1))) (tokenize "John Murphy"))
      with false by (vm_compute; reflexivity).
    reflexivity.
Defined.

Lemma filter_none {A : Type} (p : A -> bool) (l : list A) :
  (forall x, In x l -> p x = false) -> filter p l = [].
Proof.
  induction l as [|x l IH]; intros H; simpl; [reflexivity|].
  rewrite (H x (or_introl eq_refl)); apply IH.
  intros y Hy; apply H; right; exact Hy.
Qed.

Lemma fold_sum_zero (f : string -> R) (l : list string) :
  (forall t, In t l -> f t = 0%R) ->
  fold_left (fun s t => s + f t)%R l 0%R = 0%R.
Proof.
  induction l as [|x l IH]; intros H; simpl; [reflexivity|].
  rewrite (H x (or_introl eq_refl)), Rplus_0_l.
  apply IH; intros t Ht; apply H; right; exact Ht.
Qed.

(** A document that has no term of the query and does not contain the
    query verbatim scores 0. *)
Theorem calculateRelevance_unrelated (query : string) (document : Document)
    (allDocuments : list Document) :
  allDocuments <> [] ->
  (forall t, In t (tokenize query) -> ~ In t (tokenize (content document))) ->
  includes (toLowerCase (content document)) (toLowerCase query) = false ->
  calculateRelevance query document allDocuments = Num 0.
Proof.
  intros Ha Hno Hinc.
  destruct (tokenize query) as [|q qs] eqn:Eq.
  { apply calculateRelevance_empty; left; exact Eq. }
  destruct (tokenize (content document)) as [|t ts] eqn:Ed.
  { apply calculateRelevance_empty; right; exact Ed. }
  rewrite calculateRelevance_value; try (rewrite ?Eq, ?Ed; discriminate);
    [|exact Ha].
  rewrite Hinc; f_equal; unfold base_value, filenameMatches.
  rewrite Eq, Ed, fold_sum_zero.
  - assert (F : filter (fun token => has (tokenize (fileName document)) token)
                       (q :: qs) = []).
    { apply filter_none; intros x Hx; apply has_false.
      intros Hf; apply (Hno x Hx).
      rewrite <- Ed; unfold content; rewrite tokenize_app_space.
      apply in_or_app; right; exact Hf. }
    rewrite F; simpl; lra.
  - intros x Hx; unfold term_value.
    rewrite (proj1 (count_occ_not_In string_dec _ _) (Hno x Hx)).
    simpl INR; unfold Rdiv; rewrite !Rmult_0_l; reflexivity.
Qed.

Lemma calculateRelevance_unrelated_witness :
  calculateRelevance "Murphy" Demo.d1 [Demo.d1; Demo.d2] = Num 0.
Proof.
  apply (calculateRelevance_unrelated "Murphy" Demo.d1 [Demo.d1; Demo.d2]).
  - discriminate.
  - intros t [<- | []]; vm_compute.
    intros H; repeat (destruct H as [H | H]; [discriminate H|]); exact H.
  - vm_compute; reflexivity.
Defined.

(** ** Pages and order of the results *)

Lemma slice_firstn_skipn {A : Type} (l : list A) (start count : Z) :
  (0 <= start)%Z -> (0 <= count)%Z ->
  slice l start (start + count)
  = firstn (Z.to_nat count) (skipn (Z.to_nat start) l).
Proof.
  intros Hs Hc; unfold slice.
  destruct (Z.ltb_spec start 0) as [?|_]; [lia|].
  destruct (Z.ltb_spec (start + count) 0) as [?|_]; [lia|].
  destruct (Z.le_gt_cases (Z.of_nat (List.length l)) start) as [Hge | Hlt].
  - rewrite (Z.min_r start) by lia.
    rewrite !skipn_all2 by lia; rewrite !firstn_nil; reflexivity.
  - rewrite (Z.min_l start) by lia.
    set (m := skipn (Z.to_nat start) l).
    assert (Lm : List.length m = List.length l - Z.to_nat start)
      by (unfold m; apply length_skipn).
    destruct (Z.le_gt_cases (start + count) (Z.of_nat (List.length l))).
    + rewrite Z.min_l by lia; f_equal; lia.
    + rewrite Z.min_r by lia.
      replace (Z.to_nat (Z.of_nat (List.length l) - start))
        with (List.length m) by lia.
      rewrite firstn_all, firstn_all2 by lia; reflexivity.
Qed.

Lemma firstn_add_skipn {A : Type} (b c : nat) (l : list A) :
  firstn b l ++ firstn c (skipn b l) = firstn (b + c) l.
Proof.
  revert l; induction b as [|b IH]; intros l; [reflexivity|].
  destruct l as [|x l]; simpl; [rewrite firstn_nil; reflexivity|].
  rewrite IH; reflexivity.
Qed.

Lemma slice_tile {A : Type} (l : list A) (a b c : Z) :
  (0 <= a)%Z -> (0 <= b)%Z -> (0 <= c)%Z ->
  slice l a (a + b) ++ slice l (a + b) (a + b + c) = slice l a (a + (b + c)).
Proof.
  intros Ha Hb Hc.
  rewrite !slice_firstn_skipn by lia.
  replace (Z.to_nat (a + b)) with (Z.to_nat b + Z.to_nat a) by lia.
  rewrite <- skipn_skipn, firstn_add_skipn; f_equal; lia.
Qed.

Lemma StronglySorted_skipn {A : Type} (R : A -> A -> Prop) (n : nat)
    (l : list A) :
  StronglySorted R l -> StronglySorted R (skipn n l).
Proof.
  revert l; induction n as [|n IH]; intros l H; [exact H|].
  destruct l as [|x l]; [exact H|].
  simpl; apply IH; inversion H; assumption.
Qed.

Lemma StronglySorted_firstn {A : Type} (R : A -> A -> Prop) (n : nat)
    (l : list A) :
  StronglySorted R l -> StronglySorted R (firstn n l).
Proof.
  revert l; induction n as [|n IH]; intros l H; [constructor|].
  destruct l as [|x l]; [constructor|].
  inversion H as [|? ? Hl Hx]; subst; simpl; constructor; [apply IH; exact Hl|].
  rewrite Forall_forall in *; intros y Hy; apply Hx.
  rewrite <- (firstn_skipn n l); apply in_or_app; left; exact Hy.
Qed.

Lemma StronglySorted_slice {A : Type} (R : A -> A -> Prop) (l : list A)
    (start stop : Z) :
  StronglySorted R l -> StronglySorted R (slice l start stop).
Proof.
  intros H; unfold slice.
  apply StronglySorted_firstn, StronglySorted_skipn, H.
Qed.

Section PageProperties.

Variable Date_parse : string -> option Z.
Variable Date_now : Z.
Variable localeCompare : string -> string -> Z.

(** Consecutive pages tile the result list: the page of [b] results from
    [a] followed by the page of [c] results from [a + b] is the page of
    [b + c] results from [a]. *)
Theorem search_pages_tile (idx : Index) (query : string)
    (documents : list Document) (options : Options) (a b c : Z) :
  (0 <= a)%Z -> (0 <= b)%Z -> (0 <= c)%Z ->
  results (search Date_parse Date_now localeCompare idx query documents
                  (with_page options a b))
  ++ results (search Date_parse Date_now localeCompare idx query documents
                     (with_page options (a + b) c))
  = results (search Date_parse Date_now localeCompare idx query documents
                    (with_page options a (b + c))).
Proof.
  intros Ha Hb Hc; unfold search; cbn [results with_page offset limit
    filters sortBy sortOrder].
  change (candidates idx query documents (with_page options a b))
    with (candidates idx query documents options).
  change (candidates idx query documents (with_page options (a + b) c))
    with (candidates idx query documents options).
  change (candidates idx query documents (with_page options a (b + c)))
    with (candidates idx query documents options).
  apply slice_tile; assumption.
Qed.

(** [hasMore] tells whether the page is followed by further results: when
    it is set the page is full, and when it is not the page ends with the
    last result. *)
Theorem search_hasMore (idx : Index) (query : string)
    (documents : list Document) (options : Options) :
  (0 <= limit options)%Z -> (0 <= offset options)%Z ->
  let r := search Date_parse Date_now localeCompare idx query documents
                  options in
  if hasMore (pagination r)
  then Z.of_nat (List.length (results r)) = limit options
       /\ (offset options + Z.of_nat (List.length (results r))
           < Z.of_nat (total r))%Z
  else Z.of_nat (List.length (results r))
       = Z.max 0 (Z.of_nat (total r) - offset options).
Proof.
  intros Hl Ho r.
  pose proof (search_results_length Date_parse Date_now localeCompare idx
                query documents options Hl Ho) as L.
  fold r in L.
  assert (E : hasMore (pagination r)
              = (offset options + limit options <? Z.of_nat (total r))%Z)
    by reflexivity.
  rewrite E; destruct (Z.ltb_spec (offset options + limit options)
                                  (Z.of_nat (total r))); lia.
Qed.

(** Phrase search and fuzzy search do not read the index. *)
Theorem search_ignores_index (idx idx' : Index) (query : string)
    (documents : list Document) (options : Options) :
  exactPhrase options || fuzzy options = true ->
  search Date_parse Date_now localeCompare idx query documents options
  = search Date_parse Date_now localeCompare idx' query documents options.
Proof.
  intros H; unfold search, candidates.
  destruct (exactPhrase options); [reflexivity|].
  simpl in H; rewrite H; reflexivity.
Qed.

Lemma search_result_scores (idx : Index) (query : string)
    (documents : list Document) (options : Options) (r : Result) :
  In r (map (fun result =>
               {| res_doc := result;
                  relevanceScore :=
                    calculateRelevance query result documents |})
            (applyFilters Date_parse Date_now
                          (candidates idx query documents options)
                          (filters options))) ->
  exists s, relevanceScore r = Num s.
Proof.
  intros H; apply in_map_iff in H; destruct H as [d [<- Hd]].
  apply applyFilters_incl in Hd.
  apply (candidates_incl Date_parse localeCompare) in Hd.
  cbn [relevanceScore]; apply calculateRelevance_finite.
  destruct documents; [destruct Hd | discriminate].
Qed.

(** Every score [search] returns is a finite number. *)
Theorem search_scores_finite (idx : Index) (query : string)
    (documents : list Document) (options : Options) (r : Result) :
  In r (results (search Date_parse Date_now localeCompare idx query
                        documents options)) ->
  exists s, relevanceScore r = Num s.
Proof.
  unfold search; cbn [results]; intros H.
  apply slice_In in H; unfold sortResults in H; apply sort_by_In in H.
  eapply search_result_scores; exact H.
Qed.

Lemma relevance_comparator_Gt (sortOrder : string) (a b : Result) (x y : R) :
  relevanceScore a = Num x -> relevanceScore b = Num y ->
  (jssign (comparator Date_parse localeCompare "relevance" sortOrder a b) = Gt
   <-> if (sortOrder =? "desc")%string then (x < y)%R else (y < x)%R).
Proof.
  intros Ea Eb; unfold comparator; cbn [String.eqb Ascii.eqb Bool.eqb andb].
  rewrite Ea, Eb; destruct (sortOrder =? "desc")%string; simpl;
    rewrite Rsign_Gt_iff; split; intros H; lra.
Qed.

(** Sorted by relevance, the results of [search] are in non-increasing
    order of score with "desc" (the default), and in non-decreasing order
    otherwise. *)
Theorem search_sorted_by_relevance (idx : Index) (query : string)
    (documents : list Document) (options : Options) :
  sortBy options = "relevance" ->
  StronglySorted (relevance_ordered (sortOrder options))
    (results (search Date_parse Date_now localeCompare idx query documents
                     options)).
Proof.
  intros Hs; unfold search; cbn [results].
  apply StronglySorted_slice; unfold sortResults; rewrite Hs.
  apply sort_by_sorted.
  - intros a b Ha Hb H.
    destruct (search_result_scores _ _ _ _ _ Ha) as [x Ex].
    destruct (search_result_scores _ _ _ _ _ Hb) as [y Ey].
    exists x, y; repeat split; try assumption.
    pose proof (relevance_comparator_Gt (sortOrder options) a b x y Ex Ey) as G.
    destruct (sortOrder options =? "desc")%string.
    + destruct (Rle_or_lt y x); [assumption | tauto].
    + destruct (Rle_or_lt x y); [assumption | tauto].
  - intros a b Ha Hb H.
    destruct (search_result_scores _ _ _ _ _ Ha) as [x Ex].
    destruct (search_result_scores _ _ _ _ _ Hb) as [y Ey].
    exists y, x; repeat split; try assumption.
    apply (relevance_comparator_Gt (sortOrder options) a b x y Ex Ey) in H.
    destruct (sortOrder options =? "desc")%string; lra.
  - intros a b c [x [y [Ea [Eb H1]]]] [y' [z [Eb' [Ec H2]]]].
    rewrite Eb in Eb'; injection Eb' as <-.
    exists x, z; repeat split; try assumption.
    destruct (sortOrder options =? "desc")%string; lra.
Qed.

End PageProperties.

Lemma search_pages_tile_witness :
  results (search Demo.Date_parse Demo.Date_now Demo.localeCompare
                  (buildIndex [] [Demo.d1; Demo.d2]) "Smith"
                  [Demo.d1; Demo.d2] (with_page defaultOptions 0 1))
  ++ results (search Demo.Date_parse Demo.Date_now Demo.localeCompare
                     (buildIndex [] [Demo.d1; Demo.d2]) "Smith"
                     [Demo.d1; Demo.d2] (with_page defaultOptions (0 + 1) 1))
  = results (search Demo.Date_parse Demo.Date_now Demo.localeCompare
                    (buildIndex [] [Demo.d1; Demo.d2]) "Smith"
                    [Demo.d1; Demo.d2] (with_page defaultOptions 0 (1 + 1))).
Proof.
  apply (search_pages_tile Demo.Date_parse Demo.Date_now Demo.localeCompare
                           (buildIndex [] [Demo.d1; Demo.d2]) "Smith"
                           [Demo.d1; Demo.d2] defaultOptions 0 1 1); lia.
Defined.

Lemma search_hasMore_witness :
  let r := search Demo.Date_parse Demo.Date_now Demo.localeCompare
                  (buildIndex [] [Demo.d1; Demo.d2]) "Smith"
                  [Demo.d1; Demo.d2] (with_page defaultOptions 0 1) in
  if hasMore (pagination r)
  then Z.of_nat (List.length (results r)) = limit (with_page defaultOptions 0 1)
       /\ (offset (with_page defaultOptions 0 1)
           + Z.of_nat (List.length (results r)) < Z.of_nat (total r))%Z
  else Z.of_nat (List.length (results r))
       = Z.max 0 (Z.of_nat (total r) - offset (with_page defaultOptions 0 1)).
Proof.
  apply (search_hasMore Demo.Date_parse Demo.Date_now Demo.localeCompare
                        (buildIndex [] [Demo.d1; Demo.d2]) "Smith"
                        [Demo.d1; Demo.d2] (with_page defaultOptions 0 1));
    simpl; lia.
Defined.

Lemma search_ignores_index_witness :
  search Demo.Date_parse Demo.Date_now Demo.localeCompare
         [] "Smith John" [Demo.d1; Demo.d2] Demo.phraseOptions
  = search Demo.Date_parse Demo.Date_now Demo.localeCompare
           (buildIndex [] [Demo.d1; Demo.d2]) "Smith John"
           [Demo.d1; Demo.d2] Demo.phraseOptions.
Proof.
  apply (search_ignores_index Demo.Date_parse Demo.Date_now
                              Demo.localeCompare); reflexivity.
Defined.

Lemma demo_factory_result :
  In {| res_doc := Demo.d1;
        relevanceScore :=
          calculateRelevance "factory" Demo.d1 [Demo.d1; Demo.d2] |}
     (results (search Demo.Date_parse Demo.Date_now Demo.localeCompare
                      (buildIndex [] [Demo.d1; Demo.d2]) "factory"
                      [Demo.d1; Demo.d2] defaultOptions)).
Proof.
  assert (C : applyFilters Demo.Date_parse Demo.Date_now
                (candidates (buildIndex [] [Demo.d1; Demo.d2])
                            "factory" [Demo.d1; Demo.d2] defaultOptions)
                (filters defaultOptions)
              = [Demo.d1]) by (vm_compute; reflexivity).
  unfold search; cbn [results]; rewrite C; cbn [map].
  unfold sortResults; cbn [sort_by sort_insert].
  rewrite slice_all by (cbn [List.length defaultOptions limit offset]; lia).
  left; reflexivity.
Defined.

Lemma search_scores_finite_witness :
  exists s,
    relevanceScore
      {| res_doc := Demo.d1;
         relevanceScore :=
           calculateRelevance "factory" Demo.d1 [Demo.d1; Demo.d2] |}
    = Num s.
Proof.
  exact (search_scores_finite Demo.Date_parse Demo.Date_now Demo.localeCompare
           (buildIndex [] [Demo.d1; Demo.d2]) "factory" [Demo.d1; Demo.d2]
           defaultOptions
           {| res_doc := Demo.d1;
              relevanceScore :=
                calculateRelevance "factory" Demo.d1 [Demo.d1; Demo.d2] |}
           demo_factory_result).
Defined.

Lemma search_sorted_by_relevance_witness :
  StronglySorted (relevance_ordered "desc")
    (results (search Demo.Date_parse Demo.Date_now Demo.localeCompare
                     (buildIndex [] [Demo.d1; Demo.d2]) "Smith"
                     [Demo.d1; Demo.d2] defaultOptions)).
Proof.
  apply (search_sorted_by_relevance
           Demo.Date_parse Demo.Date_now Demo.localeCompare
           (buildIndex [] [Demo.d1; Demo.d2]) "Smith" [Demo.d1; Demo.d2]
           defaultOptions).
  reflexivity.
Defined.

(** ** More on suggestions *)

Lemma offer_closed (normalizedQuery : string) (limit : Z)
    (suggestions : list string) (word : string) :
  (limit <= 0)%Z -> offer normalizedQuery limit [] word = [].
Proof.
  intros H; unfold offer.
  destruct (Z.ltb_spec (Z.of_nat (@List.length string [])) (limit * 2));
    [simpl in *; lia|].
  rewrite andb_false_r; reflexivity.
Qed.

Lemma offer_NoDup (normalizedQuery : string) (limit : Z)
    (suggestions : list string) (word : string) :
  NoDup suggestions -> NoDup (offer normalizedQuery limit suggestions word).
Proof.
  intros H; unfold offer; destruct (_ && _); [|exact H].
  apply NoDup_set_add; exact H.
Qed.

Lemma offer_In (normalizedQuery : string) (limit : Z)
    (suggestions : list string) (word s : string) :
  In s (offer normalizedQuery limit suggestions word) ->
  In s suggestions \/ s = word.
Proof.
  unfold offer; destruct (_ && _); [|auto].
  intros H; apply set_add_In in H; exact H.
Qed.

(** The set of suggestions before the final slice and sort. *)
Lemma suggestions_collected (P : list string -> Prop) (nq : string)
    (limit : Z) (searchIndex : Index) (documents : list Document) :
  P [] ->
  (forall s w, P s -> P (offer nq limit s w)) ->
  P (fold_left
       (fun s doc =>
          fold_left (offer nq limit) (match_words3 (toLowerCase (content doc)))
                    s)
       documents
       (fold_left (fun s entry => offer nq limit s (fst entry))
                  searchIndex [])).
Proof.
  intros H0 Hstep.
  assert (H1 : P (fold_left (fun s entry => offer nq limit s (fst entry))
                            searchIndex [])).
  { revert H0; generalize (@nil string).
    induction searchIndex as [|e idx IH]; intros acc Hacc; simpl; auto. }
  revert H1; generalize (fold_left (fun s entry => offer nq limit s (fst entry))
                                   searchIndex []).
  induction documents as [|d ds IH]; intros acc Hacc; simpl; [exact Hacc|].
  apply IH; revert Hacc; generalize acc.
  induction (match_words3 (toLowerCase (content d))) as [|w ws IHw];
    intros acc' Hacc'; simpl; auto.
Qed.

(** A slice of a list without repetition has none. *)
Lemma slice_NoDup {A : Type} (arr : list A) (start stop : Z) :
  NoDup arr -> NoDup (slice arr start stop).
Proof.
  unfold slice; intros H.
  set (k := Z.to_nat _); set (n := Z.to_nat _).
  assert (Hs : NoDup (skipn n arr)).
  { rewrite <- (firstn_skipn n arr) in H.
    exact (NoDup_app_remove_l _ _ H). }
  rewrite <- (firstn_skipn k (skipn n arr)) in Hs.
  exact (NoDup_app_remove_r _ _ Hs).
Qed.

Lemma slice_map {A B : Type} (f : A -> B) (arr : list A) (start stop : Z) :
  map f (slice arr start stop) = slice (map f arr) start stop.
Proof.
  unfold slice; rewrite length_map, <- firstn_map, <- skipn_map; reflexivity.
Qed.

(** There are at most [limit] suggestions (none when [limit] is not
    positive), and no suggestion comes twice. *)
Theorem getSuggestions_bounded_distinct (searchIndex : Index)
    (partialQuery : string) (documents : list Document) (limit : Z) :
  (Z.of_nat
     (List.length (getSuggestions searchIndex partialQuery documents limit))
   <= Z.max 0 limit)%Z
  /\ NoDup (getSuggestions searchIndex partialQuery documents limit).
Proof.
  unfold getSuggestions.
  destruct ((partialQuery =? "")%string || (String.length partialQuery <? 2)).
  { split; [simpl; lia | constructor]. }
  set (nq := toLowerCase partialQuery).
  split.
  - rewrite sort_by_length.
    destruct (Z.le_gt_cases limit 0) as [Hle | Hgt].
    + assert (E : fold_left
               (fun s doc =>
                  fold_left (offer nq limit)
                            (match_words3 (toLowerCase (content doc))) s)
               documents
               (fold_left (fun s entry => offer nq limit s (fst entry))
                          searchIndex []) = []).
      { apply (suggestions_collected (fun s => s = [])); [reflexivity|].
        intros s w ->; apply offer_closed; [exact [] | exact Hle]. }
      rewrite E; unfold slice; simpl.
      rewrite firstn_nil; simpl; lia.
    + pose proof (slice_length
                    (fold_left
                       (fun s doc =>
                          fold_left (offer nq limit)
                                    (match_words3 (toLowerCase (content doc))) s)
                       documents
                       (fold_left (fun s entry => offer nq limit s (fst entry))
                                  searchIndex []))
                    0 limit ltac:(lia) ltac:(lia)) as L.
      rewrite Z.add_0_l in L; lia.
  - eapply Permutation_NoDup; [apply Permutation_sym, sort_by_perm|].
    apply slice_NoDup.
    apply (suggestions_collected (@NoDup string)); [constructor|].
    intros s w; apply offer_NoDup.
Qed.

(** The suggestions come shortest first. *)
Theorem getSuggestions_sorted_by_length (searchIndex : Index)
    (partialQuery : string) (documents : list Document) (limit : Z) :
  StronglySorted (fun a b => String.length a <= String.length b)
    (getSuggestions searchIndex partialQuery documents limit).
Proof.
  unfold getSuggestions.
  destruct ((partialQuery =? "")%string || (String.length partialQuery <? 2));
    [constructor|].
  apply sort_by_sorted.
  - intros x y _ _ H; destruct (Nat.compare_spec (String.length x)
                                                  (String.length y));
      [lia | lia | congruence].
  - intros x y _ _ H; apply Nat.compare_gt_iff in H; lia.
  - intros x y z; lia.
Qed.

(** A suggestion is a term of the index or a word of three or more word
    characters of the lower-cased content of a document. *)
Theorem getSuggestions_provenance (searchIndex : Index)
    (partialQuery : string) (documents : list Document) (limit : Z)
    (s : string) :
  In s (getSuggestions searchIndex partialQuery documents limit) ->
  index_has searchIndex s = true
  \/ exists doc, In doc documents
                 /\ In s (match_words3 (toLowerCase (content doc))).
Proof.
  unfold getSuggestions.
  destruct ((partialQuery =? "")%string || (String.length partialQuery <? 2));
    [intros []|].
  rewrite sort_by_In; intros H; apply slice_In in H; revert s H.
  set (nq := toLowerCase partialQuery).
  assert (H1 : forall s,
             In s (fold_left (fun s entry => offer nq limit s (fst entry))
                             searchIndex []) ->
             index_has searchIndex s = true).
  { intros s Hs; apply index_has_keys; revert s Hs.
    assert (G : forall acc,
               (forall s, In s acc -> In s (map fst searchIndex)) ->
               forall l, incl l searchIndex ->
               forall s,
                 In s (fold_left (fun s entry => offer nq limit s (fst entry))
                                 l acc) ->
                 In s (map fst searchIndex)).
    { intros acc Hacc l; revert acc Hacc.
      induction l as [|e l IH]; intros acc Hacc Hl; simpl; [exact Hacc|].
      apply IH; [|intros x Hx; apply Hl; right; exact Hx].
      intros s Hs; apply offer_In in Hs; destruct Hs as [Hs | ->];
        [apply Hacc; exact Hs|].
      apply in_map, Hl; left; reflexivity. }
    apply (G [] (fun s (H : In s []) => False_ind _ H) searchIndex
             (incl_refl _)). }
  revert H1.
  generalize (fold_left (fun s entry => offer nq limit s (fst entry))
                        searchIndex []).
  assert (G : forall docs, incl docs documents ->
             forall acc,
               (forall s, In s acc ->
                          index_has searchIndex s = true
                          \/ exists doc, In doc documents
                               /\ In s (match_words3
                                          (toLowerCase (content doc)))) ->
               forall s,
                 In s (fold_left
                         (fun s doc =>
                            fold_left (offer nq limit)
                              (match_words3 (toLowerCase (content doc))) s)
                         docs acc) ->
                 index_has searchIndex s = true
                 \/ exists doc, In doc documents
                      /\ In s (match_words3 (toLowerCase (content doc)))).
  { induction docs as [|d ds IH]; intros Hd acc Hacc; simpl; [exact Hacc|].
    apply IH; [intros x Hx; apply Hd; right; exact Hx|].
    assert (Hdoc : In d documents) by (apply Hd; left; reflexivity).
    assert (W : forall ws, incl ws (match_words3 (toLowerCase (content d))) ->
               forall acc',
                 (forall s, In s acc' ->
                    index_has searchIndex s = true
                    \/ exists doc, In doc documents
                         /\ In s (match_words3 (toLowerCase (content doc)))) ->
                 forall s, In s (fold_left (offer nq limit) ws acc') ->
                    index_has searchIndex s = true
                    \/ exists doc, In doc documents
                         /\ In s (match_words3 (toLowerCase (content doc)))).
    { induction ws as [|w ws IHw]; intros Hw acc' Hacc'; simpl; [exact Hacc'|].
      apply IHw; [intros x Hx; apply Hw; right; exact Hx|].
      intros s Hs; apply offer_In in Hs; destruct Hs as [Hs | ->];
        [apply Hacc'; exact Hs|].
      right; exists d; split; [exact Hdoc | apply Hw; left; reflexivity]. }
    apply W; [apply incl_refl | exact Hacc]. }
  intros acc Hacc; apply (G documents (incl_refl _) acc).
  intros s Hs; left; apply Hacc; exact Hs.
Qed.

Lemma getSuggestions_provenance_witness :
  index_has (buildIndex [] [Demo.d1; Demo.d2]) "immigration" = true
  \/ exists doc, In doc [Demo.d1; Demo.d2]
                 /\ In "immigration"
                       (match_words3 (toLowerCase (content doc))).
Proof.
  apply (getSuggestions_provenance (buildIndex [] [Demo.d1; Demo.d2]) "Im"
                                   [Demo.d1; Demo.d2] 5 "immigration").
  vm_compute; auto.
Defined.

(** ** Search analytics *)

Lemma counts_keys_set (m : Counts) (t : string) (v : nat) :
  map fst (counts_set m t v) = set_add (map fst m) t.
Proof.
  induction m as [|[k n] m IH]; simpl; [reflexivity|].
  unfold set_add, has; cbn [existsb]; fold (has (map fst m) t).
  rewrite (String.eqb_sym t k).
  destruct (k =? t)%string; simpl; [reflexivity|].
  rewrite IH; unfold set_add; destruct (has (map fst m) t); reflexivity.
Qed.

Lemma tally_keys_fold (l : list string) (m : Counts) :
  map fst (fold_left (fun m s => counts_set m s (counts_get0 m s + 1)) l m)
  = fold_left set_add l (map fst m).
Proof.
  revert m; induction l as [|x l IH]; intros m; simpl; [reflexivity|].
  rewrite IH, counts_keys_set; reflexivity.
Qed.

Lemma tally_keys (l : list string) :
  map fst (Analytics.tally l) = Analytics.distinct l.
Proof. apply tally_keys_fold. Qed.

Lemma distinct_NoDup (l : list string) : NoDup (Analytics.distinct l).
Proof.
  unfold Analytics.distinct.
  assert (H : NoDup (@nil string)) by constructor.
  revert H; generalize (@nil string).
  induction l as [|x l IH]; intros acc H; simpl; [exact H|].
  apply IH, NoDup_set_add, H.
Qed.

Lemma distinct_In (l : list string) (x : string) :
  In x (Analytics.distinct l) <-> In x l.
Proof.
  unfold Analytics.distinct; rewrite fold_set_add_In; simpl; tauto.
Qed.

Lemma counts_get0_In (m : Counts) (k : string) (v : nat) :
  NoDup (map fst m) -> In (k, v) m -> counts_get0 m k = v.
Proof.
  unfold counts_get0; induction m as [|[t n] m IH]; simpl; intros Hn Hin;
    [destruct Hin|].
  inversion Hn as [|? ? Hx Hm]; subst.
  destruct Hin as [[= -> ->] | Hin].
  - rewrite String.eqb_refl; reflexivity.
  - destruct (String.eqb_spec t k) as [->|N].
    + exfalso; apply Hx; apply in_map_iff; exists (k, v); auto.
    + apply IH; assumption.
Qed.

Lemma tally_entry (l : list string) (k : string) (v : nat) :
  In (k, v) (Analytics.tally l) ->
  v = count_occ string_dec l k /\ 1 <= v.
Proof.
  intros H.
  assert (Hk : In k l).
  { apply distinct_In; rewrite <- tally_keys.
    apply in_map_iff; exists (k, v); auto. }
  assert (E : counts_get0 (Analytics.tally l) k = v).
  { apply counts_get0_In; [|exact H].
    rewrite tally_keys; apply distinct_NoDup. }
  assert (C : counts_get0 (Analytics.tally l) k = count_occ string_dec l k)
    by (apply count_tokens_get0).
  split; [congruence|].
  apply (count_occ_In string_dec) in Hk; lia.
Qed.

Lemma counts_get0_cons (k t : string) (n : nat) (m : Counts) :
  counts_get0 ((k, n) :: m) t
  = if (k =? t)%string then n else counts_get0 m t.
Proof. unfold counts_get0; simpl; destruct (k =? t)%string; reflexivity. Qed.

Lemma counts_sum_set_any (m : Counts) (t : string) (v : nat) :
  list_sum (map snd (counts_set m t v)) + counts_get0 m t
  = list_sum (map snd m) + v.
Proof.
  induction m as [|[k n] m IH].
  - simpl; unfold counts_get0; simpl; lia.
  - rewrite counts_get0_cons; cbn [counts_set].
    destruct (k =? t)%string; cbn [map snd];
      change (list_sum (?a :: ?l)) with (a + list_sum l); lia.
Qed.

Lemma counts_sum_set (m : Counts) (t : string) :
  list_sum (map snd (counts_set m t (counts_get0 m t + 1)))
  = list_sum (map snd m) + 1.
Proof.
  pose proof (counts_sum_set_any m t (counts_get0 m t + 1)); lia.
Qed.

Lemma tally_sum (l : list string) :
  list_sum (map snd (Analytics.tally l)) = List.length l.
Proof.
  unfold Analytics.tally.
  assert (G : forall m,
             list_sum (map snd
                         (fold_left
                            (fun m s => counts_set m s (counts_get0 m s + 1))
                            l m))
             = list_sum (map snd m) + List.length l).
  { induction l as [|x l IH]; intros m; simpl; [lia|].
    rewrite IH, counts_sum_set; lia. }
  rewrite G; reflexivity.
Qed.

Lemma list_sum_perm (l l' : list nat) :
  Permutation l l' -> list_sum l = list_sum l'.
Proof. induction 1; simpl; lia. Qed.

Section AnalyticsProperties.

Variable Date_parse : string -> option Z.
Variable Date_now : Z.
Variable Date_minusDays : Z -> Z -> Z.
Variable toDateString : Z -> string.

Lemma topQueries_In (history : list Analytics.Entry) (e : string * nat) :
  In e (Analytics.topQueries (Analytics.getSearchAnalytics Date_parse Date_now Date_minusDays
       toDateString history)) ->
  In e (Analytics.tally (map Analytics.query history)).
Proof.
  unfold Analytics.getSearchAnalytics.
  destruct (List.length history =? 0); cbn [Analytics.topQueries];
    [intros []|].
  intros H; apply slice_In in H; apply sort_by_In in H; exact H.
Qed.

(** Every entry of [topQueries] carries the number of searches for its
    query, which is at least 1. *)
Theorem analytics_top_counts (history : list Analytics.Entry)
    (q : string) (c : nat) :
  In (q, c) (Analytics.topQueries (Analytics.getSearchAnalytics Date_parse Date_now Date_minusDays
       toDateString history)) ->
  c = count_occ string_dec (map Analytics.query history) q /\ 1 <= c.
Proof. intros H; apply tally_entry, topQueries_In, H. Qed.

(** [topQueries] lists at most ten distinct queries, the most searched
    first. *)
Theorem analytics_top_ranked (history : list Analytics.Entry) :
  StronglySorted (fun a b => snd b <= snd a)
                 (Analytics.topQueries (Analytics.getSearchAnalytics Date_parse Date_now Date_minusDays
       toDateString history))
  /\ NoDup (map fst (Analytics.topQueries (Analytics.getSearchAnalytics Date_parse Date_now Date_minusDays
       toDateString history)))
  /\ List.length (Analytics.topQueries (Analytics.getSearchAnalytics Date_parse Date_now Date_minusDays
       toDateString history))
     = Nat.min 10 (Analytics.uniqueQueries (Analytics.getSearchAnalytics Date_parse Date_now Date_minusDays
       toDateString history)).
Proof.
  unfold Analytics.getSearchAnalytics.
  destruct (List.length history =? 0) eqn:E;
    cbn [Analytics.topQueries Analytics.uniqueQueries].
  { apply Nat.eqb_eq in E; destruct history; [|discriminate].
    repeat split; constructor. }
  set (tl := Analytics.tally (map Analytics.query history)).
  set (cmp := fun a b : string * nat =>
                Z.compare (Z.of_nat (snd b)) (Z.of_nat (snd a))).
  split; [|split].
  - apply StronglySorted_slice, sort_by_sorted.
    + intros x y _ _ H; unfold cmp in H.
      destruct (Z.compare_spec (Z.of_nat (snd y)) (Z.of_nat (snd x)));
        [lia | lia | congruence].
    + intros x y _ _ H; unfold cmp in H; apply Z.compare_gt_iff in H; lia.
    + intros x y z; lia.
  - rewrite slice_map; apply slice_NoDup.
    eapply Permutation_NoDup;
      [apply Permutation_map, Permutation_sym, sort_by_perm|].
    unfold tl; rewrite tally_keys; apply distinct_NoDup.
  - pose proof (slice_length (sort_by cmp tl) 0 10 ltac:(lia) ltac:(lia)) as L.
    rewrite Z.add_0_l, sort_by_length in L.
    assert (K : List.length tl
                = List.length (Analytics.distinct (map Analytics.query history))).
    { unfold tl; rewrite <- tally_keys, length_map; reflexivity. }
    lia.
Qed.

(** [uniqueQueries] is the number of different queries in the history, and
    never exceeds [totalSearches]. *)
Theorem analytics_unique_queries (history : list Analytics.Entry) :
  Analytics.uniqueQueries (Analytics.getSearchAnalytics Date_parse Date_now Date_minusDays
       toDateString history)
  = List.length (nodup string_dec (map Analytics.query history))
  /\ Analytics.uniqueQueries (Analytics.getSearchAnalytics Date_parse Date_now Date_minusDays
       toDateString history)
     <= Analytics.totalSearches (Analytics.getSearchAnalytics Date_parse Date_now Date_minusDays
       toDateString history).
Proof.
  assert (U : Analytics.uniqueQueries (Analytics.getSearchAnalytics Date_parse Date_now Date_minusDays
       toDateString history)
              = List.length (Analytics.distinct (map Analytics.query history))).
  { unfold Analytics.getSearchAnalytics.
    destruct (List.length history =? 0); reflexivity. }
  assert (T : Analytics.totalSearches (Analytics.getSearchAnalytics Date_parse Date_now Date_minusDays
       toDateString history)
              = List.length history).
  { unfold Analytics.getSearchAnalytics.
    destruct (List.length history =? 0); reflexivity. }
  assert (P : Permutation (Analytics.distinct (map Analytics.query history))
                          (nodup string_dec (map Analytics.query history))).
  { apply NoDup_Permutation; [apply distinct_NoDup | apply NoDup_nodup|].
    intros x; rewrite distinct_In, nodup_In; tauto. }
  rewrite U, T, (Permutation_length P); split; [reflexivity|].
  rewrite <- (length_map Analytics.query history).
  apply NoDup_incl_length; [apply NoDup_nodup|].
  intros x Hx; apply nodup_In in Hx; exact Hx.
Qed.

(** The counts of [searchTrends] add up to the number of searches of the
    history whose time stamp parses and is not older than thirty days. *)
Theorem analytics_trends_total (history : list Analytics.Entry) :
  list_sum (map snd (Analytics.searchTrends (Analytics.getSearchAnalytics Date_parse Date_now Date_minusDays
       toDateString history)))
  = List.length
      (filter (Analytics.recent Date_parse (Date_minusDays Date_now 30))
              history).
Proof.
  unfold Analytics.getSearchAnalytics.
  destruct (List.length history =? 0) eqn:E; cbn [Analytics.searchTrends].
  { apply Nat.eqb_eq in E; destruct history; [reflexivity | discriminate]. }
  rewrite (list_sum_perm _ _ (Permutation_map snd (sort_by_perm _ _))).
  rewrite tally_sum, length_map; reflexivity.
Qed.

(** When the history has at most ten different queries, the counts of
    [topQueries] add up to [totalSearches]. *)
Theorem analytics_top_total (history : list Analytics.Entry) :
  Analytics.uniqueQueries (Analytics.getSearchAnalytics Date_parse Date_now Date_minusDays
       toDateString history) <= 10 ->
  list_sum (map snd (Analytics.topQueries (Analytics.getSearchAnalytics Date_parse Date_now Date_minusDays
       toDateString history)))
  = Analytics.totalSearches (Analytics.getSearchAnalytics Date_parse Date_now Date_minusDays
       toDateString history).
Proof.
  unfold Analytics.getSearchAnalytics.
  destruct (List.length history =? 0) eqn:E;
    cbn [Analytics.topQueries Analytics.uniqueQueries Analytics.totalSearches].
  { apply Nat.eqb_eq in E; rewrite E; reflexivity. }
  intros H; rewrite slice_all.
  - rewrite (list_sum_perm _ _ (Permutation_map snd (sort_by_perm _ _))).
    rewrite tally_sum, length_map; reflexivity.
  - rewrite sort_by_length, <- (length_map fst), tally_keys; lia.
Qed.

End AnalyticsProperties.

Lemma analytics_top_counts_witness :
  In ("smith", 2)
     (Analytics.topQueries
        (Analytics.getSearchAnalytics
           Demo.Date_parse Demo.Date_now SampleHistory.Date_minusDays
           SampleHistory.toDateString SampleHistory.history))
  /\ 2 = count_occ string_dec
                   (map Analytics.query SampleHistory.history) "smith"
  /\ 1 <= 2.
Proof.
  assert (H : In ("smith", 2)
                 (Analytics.topQueries
                    (Analytics.getSearchAnalytics
                       Demo.Date_parse Demo.Date_now
                       SampleHistory.Date_minusDays
                       SampleHistory.toDateString SampleHistory.history)))
    by (lazy; auto).
  split; [exact H|].
  exact (analytics_top_counts
           Demo.Date_parse Demo.Date_now SampleHistory.Date_minusDays
           SampleHistory.toDateString SampleHistory.history "smith" 2 H).
Defined.

Lemma analytics_sample :
  Analytics.topQueries
    (Analytics.getSearchAnalytics
       Demo.Date_parse Demo.Date_now SampleHistory.Date_minusDays
       SampleHistory.toDateString SampleHistory.history)
  = [("smith", 2); ("census", 1)]
  /\ Analytics.uniqueQueries
       (Analytics.getSearchAnalytics
          Demo.Date_parse Demo.Date_now SampleHistory.Date_minusDays
          SampleHistory.toDateString SampleHistory.history) = 2
  /\ Analytics.searchTrends
       (Analytics.getSearchAnalytics
          Demo.Date_parse Demo.Date_now SampleHistory.Date_minusDays
          SampleHistory.toDateString SampleHistory.history) = [].
Proof. repeat split; lazy; reflexivity. Qed.
